(** * Recon Script: liveness checker, archive URL source and report run

    A shallow embedding of [Python Projects/Recon Script.py].

    - Python exceptions are values of type [exn].  A call that may raise
      has a result in [raising], or in [option] where the exception only
      matters as such ([None]: it raised).
    - The coroutine [check_url] is cut at its [await] points: the code that
      runs after each reply is a pure function, and the asyncio event loop
      is a transition system over the program counters of the tasks and
      the counter of the shared [asyncio.Semaphore].
    - Values decoded from JSON are kept as a tree ([json]); the operations
      of the source that depend on the dynamic type of a value
      ([isinstance], iteration, indexing, hashing, [startswith]) are
      written out case by case.
    - What the script gets from outside (DNS answers, processes, HTTP
      replies, the file system) is an argument of the function that asks
      for it. *)

From Stdlib Require Import ZArith Ascii String List Lia.
From stdpp Require Import base tactics option list relations gmap strings.

Local Open Scope Z_scope.
Local Open Scope string_scope.

(** ** Configuration (lines 24-29) *)

Definition CONCURRENCY : nat := 25.
Definition TIMEOUT : Z := 15.

(** ** Exceptions *)

(** The classes the handlers of the script tell apart; each stands for the
    class and its subclasses.  [OtherException] is every other subclass of
    [Exception]. *)
Inductive exn_class :=
  | ClientResponseError
  | FileNotFoundError
  | TimeoutExpired
  | OtherException.

(** [exn_status] is the [status] attribute when the object has one (what
    [getattr(e, 'status', None)] reads); [exn_str] is [str(e)], which is
    the empty string for an exception raised without arguments, such as
    the [asyncio.TimeoutError()] of an expired request. *)
Record exn := Exn {
  exn_cls : exn_class;
  exn_status : option Z;
  exn_str : string
}.

Global Instance exn_class_eq_dec : EqDecision exn_class.
Proof. solve_decision. Defined.

Definition is_ClientResponseError (e : exn) : bool :=
  bool_decide (exn_cls e = ClientResponseError).

(** ** Probe outcomes and the transport *)

(** The dict returned by [check_url].  The key [status] is always there and
    may hold [None]; [final_url] and [error] are keys that are present
    ([Some]) or missing ([None]). *)
Record outcome := Outcome {
  o_url : string;
  o_status : option Z;
  o_final_url : option string;
  o_error : option string
}.

(** What [async with session.head(...)] / [session.get(...)] gives back:
    a response (its [status] and [str(resp.url)]) or a raised exception. *)
Inductive reply :=
  | Resp (status : Z) (final_url : string)
  | Raise (e : exn).

Inductive request :=
  | HEAD (url : string)
  | GET (url : string).

Record session := Session {
  do_head : string -> reply;
  do_get : string -> reply
}.

(** ** [check_url] (lines 92-106) *)

(** What the body does once the HEAD reply is in: return a dict, or go on
    to the GET of the fallback handler. *)
Inductive after_head :=
  | Return (o : outcome)
  | Fallback.

Definition on_head_reply (url : string) (r : reply) : after_head :=
  match r with
  | Resp st fu => Return (Outcome url (Some st) (Some fu) None)
  | Raise e =>
      if is_ClientResponseError e
      then Return (Outcome url (exn_status e) None (Some (exn_str e)))
      else Fallback
  end.

Definition on_get_reply (url : string) (r : reply) : outcome :=
  match r with
  | Resp st fu => Outcome url (Some st) (Some fu) None
  | Raise e2 => Outcome url None None (Some (exn_str e2))
  end.

(** The body of [async with semaphore] run against a session, together
    with the requests it issued, in order. *)
Definition check_url (s : session) (url : string) : outcome * list request :=
  match on_head_reply url (do_head s url) with
  | Return o => (o, [HEAD url])
  | Fallback => (on_get_reply url (do_get s url), [HEAD url; GET url])
  end.

(** ** The event loop of [bulk_check_urls] (lines 108-116) *)

(** Where a [check_url] task stands.  A task holds a unit of the semaphore
    exactly from the acquisition to its [return]: [__aexit__] of
    [asyncio.Semaphore] does not suspend, so the release and the return
    are one step of the loop. *)
Inductive pc :=
  | Pending                 (* created, waiting in [async with semaphore] *)
  | AwaitHead               (* inside, HEAD in flight *)
  | AwaitGet                (* inside, fallback GET in flight *)
  | Returned (o : outcome). (* left the [async with], result available *)

Record task := Task { t_url : string; t_pc : pc }.

Record loop_state := LoopState {
  sem_value : nat;          (* [Semaphore._value] *)
  tasks : list task         (* in the order of [create_task] *)
}.

Definition init (budget : nat) (urls : list string) : loop_state :=
  LoopState budget ((fun u => Task u Pending) <$> urls).

(** One wake-up of the loop: task [i] gets the semaphore, or the reply to
    its pending request arrives. *)
Inductive event :=
  | EvAcquire (i : nat)
  | EvHead (i : nat) (r : reply)
  | EvGet (i : nat) (r : reply).

Definition set_task (i : nat) (t : task) (st : loop_state) : loop_state :=
  LoopState (sem_value st) (<[i := t]> (tasks st)).

Definition acquire (st : loop_state) : option loop_state :=
  match sem_value st with
  | O => None
  | S v => Some (LoopState v (tasks st))
  end.

Definition release (st : loop_state) : loop_state :=
  LoopState (S (sem_value st)) (tasks st).

Definition fire (ev : event) (st : loop_state) : option loop_state :=
  match ev with
  | EvAcquire i =>
      match tasks st !! i with
      | Some (Task u Pending) =>
          set_task i (Task u AwaitHead) <$> acquire st
      | _ => None
      end
  | EvHead i r =>
      match tasks st !! i with
      | Some (Task u AwaitHead) =>
          match on_head_reply u r with
          | Return o => Some (release (set_task i (Task u (Returned o)) st))
          | Fallback => Some (set_task i (Task u AwaitGet) st)
          end
      | _ => None
      end
  | EvGet i r =>
      match tasks st !! i with
      | Some (Task u AwaitGet) =>
          Some (release (set_task i (Task u (Returned (on_get_reply u r))) st))
      | _ => None
      end
  end.

Definition step (st st' : loop_state) : Prop :=
  exists ev, fire ev st = Some st'.

(** The states the loop can be in during a run with the given budget. *)
Definition reachable (budget : nat) (urls : list string) (st : loop_state) : Prop :=
  rtc step (init budget urls) st.

Definition holds_unit (t : task) : bool :=
  match t_pc t with
  | AwaitHead | AwaitGet => true
  | _ => false
  end.

(** Number of tasks inside [async with semaphore]. *)
Definition holders (st : loop_state) : nat :=
  length (filter (fun t => holds_unit t = true) (tasks st)).

Definition result_of (t : task) : option outcome :=
  match t_pc t with
  | Returned o => Some o
  | _ => None
  end.

(** [await asyncio.gather] over the tasks: available once every task has
    returned, the results in the order of the tasks. *)
Definition gather (st : loop_state) : option (list outcome) :=
  mapM result_of (tasks st).

(** The next wake-up when the replies come from [s]: the first task, in
    creation order, that can move. *)
Definition task_event (s : session) (v : nat) (i : nat) (t : task) : option event :=
  match t_pc t with
  | Pending => if bool_decide (v = O) then None else Some (EvAcquire i)
  | AwaitHead => Some (EvHead i (do_head s (t_url t)))
  | AwaitGet => Some (EvGet i (do_get s (t_url t)))
  | Returned _ => None
  end.

Fixpoint first_event (s : session) (v : nat) (i : nat) (ts : list task) : option event :=
  match ts with
  | [] => None
  | t :: ts' =>
      match task_event s v i t with
      | Some ev => Some ev
      | None => first_event s v (S i) ts'
      end
  end.

Definition next_event (s : session) (st : loop_state) : option event :=
  first_event s (sem_value st) O (tasks st).

(** [loop.run_until_complete]: wake tasks up until none can move. *)
Fixpoint run_until_complete (fuel : nat) (s : session) (st : loop_state) : loop_state :=
  match fuel with
  | O => st
  | S fuel' =>
      match next_event s st ≫= (fun ev => fire ev st) with
      | Some st' => run_until_complete fuel' s st'
      | None => st
      end
  end.

(** A task moves at most three times. *)
Definition run_checker (budget : nat) (s : session) (urls : list string) : option (list outcome) :=
  gather (run_until_complete (3 * length urls) s (init budget urls)).

Definition bulk_check_urls (s : session) (urls : list string) : option (list outcome) :=
  run_checker CONCURRENCY s urls.

(** ** Values decoded from JSON *)

(** [r.json()] as Python holds it.  An object is the list of its members
    in insertion order.  Numbers are integers: JSON numbers with a
    fraction or an exponent are left out of the model. *)
#[local] Unset Elimination Schemes.
Inductive json :=
  | JNull
  | JBool (b : bool)
  | JNum (n : Z)
  | JStr (s : string)
  | JArr (items : list json)
  | JObj (members : list (string * json)).
#[local] Set Elimination Schemes.

(** What [hash] and [==] see of a value stored in a [set]: [True] and [1]
    are one key, as are [False] and [0]; lists and dicts have no hash. *)
Inductive hkey :=
  | KNone
  | KNum (n : Z)
  | KStr (s : string).

Global Instance hkey_eq_dec : EqDecision hkey.
Proof. solve_decision. Defined.

Global Instance hkey_countable : Countable hkey.
Proof.
  refine (inj_countable'
    (fun k => match k with
              | KNone => inl ()
              | KNum n => inr (inl n)
              | KStr s => inr (inr s)
              end)
    (fun x => match x with
              | inl _ => KNone
              | inr (inl n) => KNum n
              | inr (inr s) => KStr s
              end) _).
  by intros [].
Defined.

(** [None]: [TypeError: unhashable type]. *)
Definition py_hash_key (v : json) : option hkey :=
  match v with
  | JNull => Some KNone
  | JBool b => Some (KNum (if b then 1 else 0))
  | JNum n => Some (KNum n)
  | JStr s => Some (KStr s)
  | JArr _ | JObj _ => None
  end.

(** [iter(data)]: the items of a list, the keys of a dict, the characters
    of a string; [None] is the [TypeError] of a value that is not
    iterable. *)
Definition py_iter (data : json) : option (list json) :=
  match data with
  | JArr items => Some items
  | JObj members => Some ((fun m => JStr m.1) <$> members)
  | JStr s => Some ((fun c => JStr (String c EmptyString)) <$> list_ascii_of_string s)
  | JNull | JBool _ | JNum _ => None
  end.

(** ** [get_wayback_urls_via_cdx] (lines 62-90) *)

Definition CDX_API (domain : string) : string :=
  "http://web.archive.org/cdx/search/cdx?url=" +:+ domain
    +:+ "/*&output=json&fl=original&collapse=urlkey".

(** What [requests.get] and then [r.json()] do: the request raises, or
    there is a response with a status code whose body decodes ([Some]) or
    makes [r.json()] raise ([None]). *)
Inductive cdx_reply :=
  | CdxRaise (e : exn)
  | CdxResponse (status_code : Z) (body : option json).

(** [isinstance(row, list) and "original" in row] *)
Definition is_header (row : json) : bool :=
  match row with
  | JArr items =>
      existsb (fun x => match x with
                        | JStr s => bool_decide (s = "original")
                        | _ => false
                        end) items
  | _ => false
  end.

(** The loop of lines 72-80 from index [i] on; [None] is the [IndexError]
    of [row[0]] on an empty list. *)
Fixpoint collect_urls (i : nat) (data : list json) (urls : list json) : option (list json) :=
  match data with
  | [] => Some urls
  | row :: rest =>
      if bool_decide (i = O) && is_header row then collect_urls (S i) rest urls
      else match row with
           | JArr [] => None
           | JArr (x :: _) => collect_urls (S i) rest (urls ++ [x])
           | JStr _ => collect_urls (S i) rest (urls ++ [row])
           | _ => collect_urls (S i) rest urls
           end
  end.

(** The loop of lines 82-87; [None] is the [TypeError] of an unhashable
    [u] in [u not in seen]. *)
Fixpoint dedupe (seen : gset hkey) (out : list json) (urls : list json) : option (list json) :=
  match urls with
  | [] => Some out
  | u :: rest =>
      k ← py_hash_key u;
      if decide (k ∈ seen) then dedupe seen out rest
      else dedupe ({[k]} ∪ seen) (out ++ [u]) rest
  end.

(** The [urls] list of line 71 once the first loop is over, when the
    function gets that far without raising. *)
Definition raw_urls (r : cdx_reply) : option (list json) :=
  match r with
  | CdxRaise _ => None
  | CdxResponse status_code body =>
      if bool_decide (status_code ≠ 200) then None
      else
        data ← body;
        rows ← py_iter data;
        collect_urls O rows []
  end.

(** The [try] block: [Some] is a [return], [None] an exception on its way
    to [except Exception]. *)
Definition cdx_try (r : cdx_reply) : option (list json) :=
  match r with
  | CdxRaise _ => None
  | CdxResponse status_code body =>
      if bool_decide (status_code ≠ 200) then Some []
      else
        data ← body;
        rows ← py_iter data;
        urls ← collect_urls O rows [];
        dedupe ∅ [] urls
  end.

Definition get_wayback_urls_via_cdx
    (requests_get : string -> Z -> cdx_reply) (domain : string) (limit : Z) : list json :=
  default [] (cdx_try (requests_get (CDX_API domain) limit)).

(** ** Vocabulary of the archive source properties *)

Definition hashable (u : json) : Prop := is_Some (py_hash_key u).

Global Instance hashable_dec u : Decision (hashable u).
Proof. unfold hashable. apply _. Defined.

(** [u not in seen], for a value that has a hash. *)
Definition unseen (seen : gset hkey) (u : json) : Prop :=
  match py_hash_key u with
  | Some k => k ∉ seen
  | None => True
  end.

Global Instance unseen_dec seen u : Decision (unseen seen u).
Proof. unfold unseen. destruct (py_hash_key u); apply _. Defined.

(** Specification of the deduplication, in the words of the design: the
    first occurrence of every value is kept, in order of appearance, and
    a value equal to one seen before is dropped. *)
Fixpoint first_seen (l : list json) : list json :=
  match l with
  | [] => []
  | x :: l' => x :: filter (fun y => py_hash_key y ≠ py_hash_key x) (first_seen l')
  end.

(** The ways the remote query can fail before its result is complete. *)
Inductive source_failed : cdx_reply -> Prop :=
  | failed_request e :                       (* network failure *)
      source_failed (CdxRaise e)
  | failed_status status_code body :         (* non-200 response *)
      status_code ≠ 200 -> source_failed (CdxResponse status_code body)
  | failed_json status_code :                (* malformed JSON *)
      source_failed (CdxResponse status_code None)
  | failed_not_iterable data :               (* JSON that is no sequence *)
      py_iter data = None -> source_failed (CdxResponse 200 (Some data))
  | failed_row data rows :                   (* an empty record *)
      py_iter data = Some rows -> collect_urls O rows [] = None ->
      source_failed (CdxResponse 200 (Some data))
  | failed_unhashable data rows urls :       (* a record holding a list or dict *)
      py_iter data = Some rows -> collect_urls O rows [] = Some urls ->
      ~ Forall hashable urls ->
      source_failed (CdxResponse 200 (Some data)).

(** A record as the archive API sends it: a one-element array, or a bare
    string. *)
Definition record_of (bare : bool) (url : string) : json :=
  if bare then JStr url else JArr [JStr url].

(** The mock archive response of the end-to-end scenario. *)
Definition example_response : json :=
  JArr [JArr [JStr "original"];
        JArr [JStr "http://example.com/x"];
        JArr [JStr "http://example.com/x"]].

(** ** Calls that may raise *)

Inductive raising (A : Type) :=
  | Val (a : A)
  | Exc (e : exn).
Arguments Val {A} a.
Arguments Exc {A} e.

Global Instance raising_ret : MRet raising := fun A a => Val a.
Global Instance raising_bind : MBind raising := fun A B k m =>
  match m with
  | Val a => k a
  | Exc e => Exc e
  end.

(** ** [dns_enum] (lines 31-47) *)

Definition record_types : list string :=
  ["A"; "AAAA"; "NS"; "MX"; "TXT"; "CNAME"; "SOA"].

Section script.
(** [str.strip] and [str.splitlines] of the Python runtime. *)
Variable py_strip : string -> string.
Variable py_splitlines : string -> list string.

(** The loop of lines 35-46 over the resolver made on line 34 (the
    making of it is the caller's [main_dns]).  [resolve domain t] is
    [None] when [resolver.resolve] (or the iteration over its answers)
    raises, and else the [str(r)] of the answers. *)
Definition dns_enum (resolve : string -> string -> option (list string))
    (domain : string) : gmap string (list string) :=
  foldl (fun result t =>
           let answers :=
             match resolve domain t with
             | Some answers_raw => py_strip <$> answers_raw
             | None => []
             end in
           <[t := answers]> result)
        ∅ record_types.

(** ** [run_external_tool] (lines 49-60) *)

(** What [subprocess.run] does with a command and a timeout.  The
    commands of [main] are not empty, so [cmd[0]] is their head. *)
Inductive proc_result :=
  | Completed (returncode : Z) (stdout stderr : string)
  | ProcRaise (e : exn).

Record tool_output := ToolOutput { rc : Z; stdout : string; stderr : string }.

Definition run_external_tool (subprocess_run : list string -> Z -> proc_result)
    (cmd : list string) (timeout : Z) : raising tool_output :=
  match subprocess_run cmd timeout with
  | Completed returncode out err => Val (ToolOutput returncode out err)
  | ProcRaise e =>
      match exn_cls e with
      | FileNotFoundError =>
          Val (ToolOutput (-1) EmptyString ("Command not found: " +:+ hd EmptyString cmd))
      | TimeoutExpired => Val (ToolOutput (-2) EmptyString "Timeout")
      | _ => Exc e
      end
  end.

(** ** [extract_urls_from_waybackstdout] (lines 118-120) *)

Definition extract_urls_from_waybackstdout (output : string) : list string :=
  py_strip <$> filter (fun line => py_strip line ≠ EmptyString) (py_splitlines output).

(** ** [basic_html_links] (lines 122-134) *)

(** The page request raises, or answers with a status code and, once
    parsed, the [href] of its anchors ([None]: the parsing raises). *)
Inductive page_reply :=
  | PageRaise (e : exn)
  | PageResponse (status_code : Z) (hrefs : option (list string)).

Definition basic_html_links (requests_get : string -> page_reply) (url : string) : list string :=
  match requests_get url with
  | PageRaise _ => []
  | PageResponse status_code hrefs =>
      if bool_decide (status_code ≠ 200) then [] else default [] hrefs
  end.

(** ** [main] (lines 136-201) *)

Record arguments := Arguments_ {
  arg_domain : string;
  arg_use_wayback_bin : bool;
  arg_run_dig : bool;
  arg_out : string;
  arg_max_wayback : Z
}.

Inductive external_entry :=
  | ExtTool (o : tool_output)
  | ExtCount (returncode : Z) (count : nat).

Record report := Report {
  r_domain : string;
  r_timestamp : string;
  r_dns : gmap string (list string);
  r_wayback : list json;
  r_wayback_check : list outcome;
  r_external : gmap string external_entry;
  r_wayback_source : option string;
  r_basic_links_https : list string
}.

(** Everything outside the process that a run talks to.  The run is
    taken from line 145 on, with the parsed command line ([arguments]) as
    its input; printing the progress lines is left out. *)
Record world := World {
  w_utcnow : string;
  (** [dns.resolver.Resolver()] of line 34, which reads the configuration
      of the system: the resolver, as what its [resolve] answers, or the
      exception of a configuration that cannot be used. *)
  w_resolver : raising (string -> string -> option (list string));
  w_subprocess_run : list string -> Z -> proc_result;
  w_cdx_get : string -> Z -> cdx_reply;
  w_session : session;
  (** [asyncio.get_event_loop()] of line 186: [None] when it gives a
      loop, [Some e] when it raises. *)
  w_get_event_loop : option exn;
  w_page_get : string -> page_reply;
  (** [open(args.out, "w")] followed by [json.dump]: [None] when the
      file is written, [Some e] when either raises. *)
  w_write : string -> report -> option exn
}.

(** The loop of lines 171-178.  [None] is the [TypeError] of an
    unhashable [u]. *)
Fixpoint limit_dedupe (max_wayback : Z) (seen : gset hkey) (uniq : list json)
    (wayback_urls : list json) : option (list json) :=
  match wayback_urls with
  | [] => Some uniq
  | u :: rest =>
      k ← py_hash_key u;
      let '(seen', uniq') :=
        if decide (k ∈ seen) then (seen, uniq) else ({[k]} ∪ seen, (uniq ++ [u])%list) in
      if bool_decide (max_wayback <= Z.of_nat (length uniq'))%Z then Some uniq'
      else limit_dedupe max_wayback seen' uniq' rest
  end.

Definition TypeError (msg : string) : exn := Exn OtherException None msg.
Definition AttributeError (msg : string) : exn := Exn OtherException None msg.

(** [u.startswith("http://") or u.startswith("https://")], which only a
    [str] has. *)
Definition is_http (u : json) : raising bool :=
  match u with
  | JStr s => Val (String.prefix "http://" s || String.prefix "https://" s)
  | _ => Exc (AttributeError "object has no attribute 'startswith'")
  end.

(** Line 183. *)
Fixpoint urls_to_check (uniq : list json) : raising (list string) :=
  match uniq with
  | [] => Val []
  | u :: rest =>
      keep ← is_http u;
      tl ← urls_to_check rest;
      Val (match u with
           | JStr s => if keep : bool then s :: tl else tl
           | _ => tl
           end)
  end.

Inductive run_result :=
  | Exit0 (written : report)        (* [main] returned *)
  | Abort (e : exn)                 (* an exception left [main] *)
  | Hang.                           (* [run_until_complete] never returned *)

Definition exit_status (r : run_result) : option Z :=
  match r with
  | Exit0 _ => Some 0
  | Abort _ => Some 1
  | Hang => None
  end.

(** Lines 151-154: the optional [dig] run. *)
Definition main_dig (w : world) (args : arguments) (domain : string)
    : raising (gmap string external_entry) :=
  if arg_run_dig args then
    out ← run_external_tool (w_subprocess_run w) ["dig"; "+short"; domain] 60;
    Val (<["dig_A" := ExtTool out]> (∅ : gmap string external_entry))
  else Val ∅.

(** Lines 157-165: the [waybackurls] binary, if requested. *)
Definition main_wayback_bin (w : world) (args : arguments) (domain : string)
    (external : gmap string external_entry)
    : raising (list json * gmap string external_entry) :=
  if arg_use_wayback_bin args then
    wb ← run_external_tool (w_subprocess_run w) ["waybackurls"; domain] 120;
    if bool_decide (0 <= rc wb)%Z && negb (bool_decide (stdout wb = EmptyString)) then
      let urls := extract_urls_from_waybackstdout (stdout wb) in
      Val (JStr <$> urls,
           <["wayback_binary" := ExtCount (rc wb) (length urls)]> external)
    else Val ([], external)
  else Val ([], external).

(** Line 149: [dns_enum(domain)], whose first step makes the resolver,
    outside the [try] of the loop. *)
Definition main_dns (w : world) (domain : string) : raising (gmap string (list string)) :=
  resolve ← w_resolver w;
  Val (dns_enum resolve domain).

(** Lines 166-196: fall back to the CDX API, limit and dedupe, probe,
    sample the home page.  [Val None] stands for a probing that never
    comes back. *)
Definition main_collect (w : world) (args : arguments) (domain : string)
    (dns : gmap string (list string))
    (wayback_urls : list json) (external : gmap string external_entry)
    : raising (option report) :=
  let '(wayback_urls, source) :=
    match wayback_urls with
    | [] => (get_wayback_urls_via_cdx (w_cdx_get w) domain (arg_max_wayback args),
             Some "cdx_api")
    | _ => (wayback_urls, None)
    end in
  uniq ←
    match limit_dedupe (arg_max_wayback args) ∅ [] wayback_urls with
    | Some uniq => Val uniq
    | None => Exc (TypeError "unhashable type")
    end;
  to_check ← urls_to_check uniq;
  checks ←
    match to_check with
    | [] => Val (Some [])
    | _ =>
        match w_get_event_loop w with
        | Some e => Exc e
        | None => Val (bulk_check_urls (w_session w) to_check)
        end
    end;
  let links := basic_html_links (w_page_get w) ("https://" +:+ domain) in
  Val ((fun checks =>
          Report domain (w_utcnow w) dns uniq checks external source (take 200 links))
       <$> (checks : option (list outcome))).

(** The run up to the point where the report is complete. *)
Definition assemble (w : world) (args : arguments) : raising (option report) :=
  let domain := py_strip (arg_domain args) in
  dns ← main_dns w domain;
  external ← main_dig w args domain;
  '(wayback_urls, external) ← main_wayback_bin w args domain external;
  main_collect w args domain dns wayback_urls external.

Definition main (w : world) (args : arguments) : run_result :=
  match assemble w args with
  | Exc e => Abort e
  | Val None => Hang
  | Val (Some result) =>
      match w_write w (arg_out args) result with
      | None => Exit0 result
      | Some e => Abort e
      end
  end.
End script.

(** ** Vocabulary of the run properties *)

Definition is_str (u : json) : Prop := exists s, u = JStr s.

(** A run with [--run-dig] on a machine where [dig] cannot be executed:
    DNS, archive and page requests all fail, and the output file is
    writable. *)
Definition dig_denied_world : world :=
  World "2024-01-01T00:00:00"
        (Val (fun _ _ => None))
        (fun _ _ => ProcRaise (Exn OtherException None "[Errno 13] Permission denied: 'dig'"))
        (fun _ _ => CdxRaise (Exn OtherException None "Connection refused"))
        (Session (fun _ => Raise (Exn OtherException None "Connection refused"))
                 (fun _ => Raise (Exn OtherException None "Connection refused")))
        None
        (fun _ => PageRaise (Exn OtherException None "Connection refused"))
        (fun _ _ => None).

Definition dig_arguments : arguments :=
  Arguments_ "example.com" false true "recon_result.json" 500.

(** A run without external tools in which every lookup and request fails
    and the output directory is read-only. *)
Definition read_only_world : world :=
  World "2024-01-01T00:00:00"
        (Val (fun _ _ => None))
        (fun _ _ => ProcRaise (Exn FileNotFoundError None "No such file or directory"))
        (fun _ _ => CdxRaise (Exn OtherException None "Connection refused"))
        (Session (fun _ => Raise (Exn OtherException None "Connection refused"))
                 (fun _ => Raise (Exn OtherException None "Connection refused")))
        None
        (fun _ => PageRaise (Exn OtherException None "Connection refused"))
        (fun _ _ => Some (Exn OtherException None "[Errno 13] Permission denied: 'recon_result.json'")).

Definition plain_arguments : arguments :=
  Arguments_ "example.com" false false "recon_result.json" 500.

(** A run in which the archive answers with a record whose first element
    is a number. *)
Definition numeric_record_world : world :=
  World "2024-01-01T00:00:00"
        (Val (fun _ _ => None))
        (fun _ _ => ProcRaise (Exn FileNotFoundError None "No such file or directory"))
        (fun _ _ => CdxResponse 200 (Some (JArr [JArr [JNum 1]])))
        (Session (fun _ => Raise (Exn OtherException None "Connection refused"))
                 (fun _ => Raise (Exn OtherException None "Connection refused")))
        None
        (fun _ => PageRaise (Exn OtherException None "Connection refused"))
        (fun _ _ => None).

(** A run on a machine without a usable resolver configuration:
    [dns.resolver.Resolver()] raises [NoResolverConfiguration]. *)
Definition no_resolver_world : world :=
  World "2024-01-01T00:00:00"
        (Exc (Exn OtherException None
                "Resolver configuration could not be read or specified no nameservers."))
        (fun _ _ => ProcRaise (Exn FileNotFoundError None "No such file or directory"))
        (fun _ _ => CdxRaise (Exn OtherException None "Connection refused"))
        (Session (fun _ => Raise (Exn OtherException None "Connection refused"))
                 (fun _ => Raise (Exn OtherException None "Connection refused")))
        None
        (fun _ => PageRaise (Exn OtherException None "Connection refused"))
        (fun _ _ => None).

(** On a string without white space or line breaks, such as the domain of
    these runs, [str.strip] is the identity and [str.splitlines] gives the
    string as its one line. *)
Definition strip_plain (s : string) : string := s.
Definition splitlines_plain (s : string) : list string := [s].

(** ** Vocabulary of the liveness checker properties *)

(** The session of the end-to-end scenario: on three of the five URLs the
    HEAD times out and the GET answers 200; the other two answer the
    HEAD. *)
Definition scenario_urls : list string :=
  ["http://a/"; "http://b/"; "http://c/"; "http://d/"; "http://e/"].

Definition scenario_session : session :=
  Session (fun u => if bool_decide (u ∈ ["http://a/"; "http://c/"; "http://e/"])
                    then Raise (Exn OtherException None EmptyString)
                    else Resp 204 u)
          (fun u => Resp 200 u).

(** Units of the semaphore a task holds. *)
Definition unit_count (t : task) : nat := if holds_unit t then 1%nat else 0%nat.

(** The case analysis behind every step: which task moved and how. *)
Inductive fired (st : loop_state) : loop_state -> Prop :=
  | fired_acquire i u v :
      tasks st !! i = Some (Task u Pending) ->
      sem_value st = S v ->
      fired st (LoopState v (<[i := Task u AwaitHead]> (tasks st)))
  | fired_head_return i u r o :
      tasks st !! i = Some (Task u AwaitHead) ->
      on_head_reply u r = Return o ->
      fired st (LoopState (S (sem_value st)) (<[i := Task u (Returned o)]> (tasks st)))
  | fired_head_fallback i u r :
      tasks st !! i = Some (Task u AwaitHead) ->
      on_head_reply u r = Fallback ->
      fired st (LoopState (sem_value st) (<[i := Task u AwaitGet]> (tasks st)))
  | fired_get i u r :
      tasks st !! i = Some (Task u AwaitGet) ->
      fired st (LoopState (S (sem_value st))
                  (<[i := Task u (Returned (on_get_reply u r))]> (tasks st))).

(** What every step keeps: the units handed out are exactly the units
    missing from the counter, and the tasks stay attached to their URLs. *)
Definition accounted (budget : nat) (urls : list string) (st : loop_state) : Prop :=
  (sem_value st + holders st = budget)%nat /\ t_url <$> tasks st = urls.

(** Wake-ups a task still has ahead of it, at most. *)
Definition remaining (t : task) : nat :=
  match t_pc t with
  | Pending => 3
  | AwaitHead => 2
  | AwaitGet => 1
  | Returned _ => 0
  end.

Definition work_left (st : loop_state) : nat := sum_list (remaining <$> tasks st).

Definition all_returned (st : loop_state) : Prop :=
  Forall (fun t => is_Some (result_of t)) (tasks st).

(** The dicts a run of [check_url] on [u] can return, over all replies. *)
Inductive produced (u : string) : outcome -> Prop :=
  | produced_head r o :
      on_head_reply u r = Return o -> produced u o
  | produced_get r1 r2 :
      on_head_reply u r1 = Fallback -> produced u (on_get_reply u r2).

Definition result_sound (t : task) : Prop :=
  match t_pc t with
  | Returned o => produced (t_url t) o
  | AwaitGet => exists r1, on_head_reply (t_url t) r1 = Fallback
  | _ => True
  end.

Definition follows (s : session) (t : task) : Prop :=
  match t_pc t with
  | Returned o => o = (check_url s (t_url t)).1
  | AwaitGet => on_head_reply (t_url t) (do_head s (t_url t)) = Fallback
  | _ => True
  end.

(** A HEAD that ends in too many redirects, on a server whose GET would
    answer. *)
Definition redirecting_session : session :=
  Session (fun _ => Raise (Exn ClientResponseError (Some 302) "302, message='Too many redirects'"))
          (fun _ => Resp 200 "http://example.com/").

(** A session on which every request times out: [asyncio.TimeoutError()]
    is raised without arguments, so its [str] is empty. *)
Definition timing_out_session : session :=
  Session (fun _ => Raise (Exn OtherException None EmptyString))
          (fun _ => Raise (Exn OtherException None EmptyString)).

(** ** Vocabulary of the further properties *)

(** A wake-up whose reply, when it carries one, is what session [s]
    answers for the URL of the task that is woken up. *)
Definition from_session (s : session) (st : loop_state) (ev : event) : Prop :=
  match ev with
  | EvAcquire _ => True
  | EvHead i r => exists t, tasks st !! i = Some t /\ r = do_head s (t_url t)
  | EvGet i r => exists t, tasks st !! i = Some t /\ r = do_get s (t_url t)
  end.

(** A step of the loop, in any order of the tasks, against session [s]. *)
Definition step_in (s : session) (st st' : loop_state) : Prop :=
  exists ev, from_session s st ev /\ fire ev st = Some st'.

Global Instance is_str_dec u : Decision (is_str u).
Proof.
  destruct u as [| | |s| |]; try (right; by intros [? [=]]). left. by exists s.
Defined.

(** The test of line 183 on a string. *)
Definition starts_with_http (s : string) : bool :=
  String.prefix "http://" s || String.prefix "https://" s.

(** The same world with another archive. *)
Definition with_cdx (w : world) (cdx_get : string -> Z -> cdx_reply) : world :=
  World (w_utcnow w) (w_resolver w) (w_subprocess_run w) cdx_get
        (w_session w) (w_get_event_loop w) (w_page_get w) (w_write w).

(** A run with [--use-wayback-bin] in which the binary prints one URL. *)
Definition binary_world : world :=
  World "2024-01-01T00:00:00"
        (Val (fun _ _ => None))
        (fun _ _ => Completed 0 "http://example.com/a" EmptyString)
        (fun _ _ => CdxRaise (Exn OtherException None "Connection refused"))
        (Session (fun u => Resp 200 u) (fun u => Resp 200 u))
        None
        (fun _ => PageRaise (Exn OtherException None "Connection refused"))
        (fun _ _ => None).

Definition binary_arguments : arguments :=
  Arguments_ "example.com" true false "recon_result.json" 500.

(** [str.splitlines] on a string whose only line breaks are line feeds. *)
Fixpoint split_lf (line : string) (s : string) : list string :=
  match s with
  | EmptyString => match line with EmptyString => [] | _ => [line] end
  | String c s' =>
      if Ascii.eqb c "010"%char then line :: split_lf EmptyString s'
      else split_lf (line +:+ String c EmptyString) s'
  end.

Definition splitlines_lf (s : string) : list string := split_lf EmptyString s.

Definition lf : string := String "010"%char EmptyString.

(** A run with [--use-wayback-bin] and [--max-wayback 2] in which the
    binary prints four lines, the second a repetition of the first. *)
Definition repeating_binary_world : world :=
  World "2024-01-01T00:00:00"
        (Val (fun _ _ => None))
        (fun _ _ => Completed 0
           ("http://a/" +:+ lf +:+ "http://a/" +:+ lf +:+ "http://b/" +:+ lf +:+ "http://c/")
           EmptyString)
        (fun _ _ => CdxRaise (Exn OtherException None "Connection refused"))
        (Session (fun u => Resp 200 u) (fun u => Resp 200 u))
        None
        (fun _ => PageRaise (Exn OtherException None "Connection refused"))
        (fun _ _ => None).

Definition capped_binary_arguments : arguments :=
  Arguments_ "example.com" true false "recon_result.json" 2.

(** A run with [--max-wayback 2] in which the archive answers with four
    records, the second a repetition of the first. *)
Definition repeating_cdx_world : world :=
  World "2024-01-01T00:00:00"
        (Val (fun _ _ => None))
        (fun _ _ => ProcRaise (Exn FileNotFoundError None "No such file or directory"))
        (fun _ _ => CdxResponse 200
           (Some (JArr [JArr [JStr "http://a/"]; JArr [JStr "http://a/"];
                        JArr [JStr "http://b/"]; JArr [JStr "http://c/"]])))
        (Session (fun u => Resp 200 u) (fun u => Resp 200 u))
        None
        (fun _ => PageRaise (Exn OtherException None "Connection refused"))
        (fun _ _ => None).

Definition capped_arguments : arguments :=
  Arguments_ "example.com" false false "recon_result.json" 2.

(** A resolver with an answer for the [A] records only. *)
Definition a_only_resolve (domain t : string) : option (list string) :=
  if bool_decide (t = "A") then Some ["93.184.216.34"] else None.

(** * Properties *)

(** ** Lists updated in place *)

Section list_update.
Context {A : Type}.
Implicit Types (l : list A) (f : A -> nat).

Lemma sum_list_insert f l i x y :
  l !! i = Some x ->
  (sum_list (f <$> <[i := y]> l) + f x = sum_list (f <$> l) + f y)%nat.
Proof.
  revert i. induction l as [|a l IH]; intros [|i] Hi; simpl in Hi; simplify_eq; csimpl.
  - lia.
  - specialize (IH _ Hi). lia.
Qed.

Lemma length_filter_sum (P : A -> Prop) `{!forall x, Decision (P x)} l :
  length (filter P l) = sum_list ((fun x => if decide (P x) then 1%nat else 0%nat) <$> l).
Proof.
  induction l as [|a l IH]; [done|].
  rewrite filter_cons, fmap_cons. csimpl.
  destruct (decide (P a)); csimpl; rewrite IH; lia.
Qed.
End list_update.

(** ** Semaphore accounting *)

Lemma holders_sum st : holders st = sum_list (unit_count <$> tasks st).
Proof.
  unfold holders. rewrite length_filter_sum. f_equal.
  apply list_fmap_ext. intros _ t _. unfold unit_count.
  destruct (holds_unit t); by case_decide.
Qed.

Lemma holders_insert v st i t t' :
  tasks st !! i = Some t ->
  (holders (LoopState v (<[i := t']> (tasks st))) + unit_count t
   = holders st + unit_count t')%nat.
Proof. intros Hi. rewrite !holders_sum. by apply sum_list_insert. Qed.

Lemma fire_fired ev st st' : fire ev st = Some st' -> fired st st'.
Proof.
  destruct ev as [i|i r|i r]; simpl;
    destruct (tasks st !! i) as [[u []]|] eqn:Hi; try done.
  - unfold acquire. destruct (sem_value st) as [|v] eqn:Hv; [done|].
    intros [= <-]. exact (fired_acquire st i u v Hi Hv).
  - destruct (on_head_reply u r) eqn:Hr; intros [= <-].
    + exact (fired_head_return st i u r o Hi Hr).
    + exact (fired_head_fallback st i u r Hi Hr).
  - intros [= <-]. exact (fired_get st i u r Hi).
Qed.

Lemma step_fired st st' : step st st' -> fired st st'.
Proof. intros [ev Hev]. by eapply fire_fired. Qed.

Lemma accounted_init budget urls : accounted budget urls (init budget urls).
Proof.
  split.
  - rewrite holders_sum. unfold init; cbn [sem_value tasks].
    assert (sum_list (unit_count <$> ((fun u => Task u Pending) <$> urls)) = 0%nat) as ->; [|lia].
    induction urls as [|u us IH]; csimpl; [done|by rewrite IH].
  - unfold init; cbn [tasks].
    induction urls as [|u us IH]; csimpl; [done|by rewrite IH].
Qed.

Lemma urls_insert (ts : list task) i u p p' :
  ts !! i = Some (Task u p) -> t_url <$> <[i := Task u p']> ts = t_url <$> ts.
Proof.
  intros Hi. rewrite list_fmap_insert. apply list_insert_id.
  by rewrite list_lookup_fmap, Hi.
Qed.

Lemma accounted_fired budget urls st st' :
  accounted budget urls st -> fired st st' -> accounted budget urls st'.
Proof.
  intros [Hsem Hurls] Hf.
  destruct Hf as [i u v Hi Hv|i u r o Hi Hr|i u r Hi Hr|i u r Hi];
    (split; [|cbn [tasks]; by erewrite urls_insert]).
  all: match goal with
       | |- (sem_value (LoopState ?v (<[_ := ?t']> _)) + _)%nat = _ =>
           pose proof (holders_insert v st i _ t' Hi) as Hh
       end.
  all: cbn [sem_value unit_count holds_unit t_pc] in *; lia.
Qed.

Lemma accounted_reachable budget urls st :
  reachable budget urls st -> accounted budget urls st.
Proof.
  unfold reachable. revert st. apply rtc_ind_r; [apply accounted_init|].
  eauto using accounted_fired, step_fired.
Qed.

(** ** Termination of the loop *)

Lemma work_left_init budget urls :
  work_left (init budget urls) = (3 * length urls)%nat.
Proof.
  unfold work_left, init; cbn [tasks].
  induction urls as [|u us IH]; csimpl; [done|]. rewrite IH. simpl. lia.
Qed.

Lemma work_left_insert v st i t t' :
  tasks st !! i = Some t ->
  (work_left (LoopState v (<[i := t']> (tasks st))) + remaining t
   = work_left st + remaining t')%nat.
Proof. intros Hi. by apply sum_list_insert. Qed.

Lemma fired_work_left st st' : fired st st' -> (work_left st' < work_left st)%nat.
Proof.
  intros Hf. destruct Hf as [i u v Hi Hv|i u r o Hi Hr|i u r Hi Hr|i u r Hi].
  all: match goal with
       | |- (work_left (LoopState ?v (<[_ := ?t']> _)) < _)%nat =>
           pose proof (work_left_insert v st i _ t' Hi) as Hw
       end.
  all: cbn [remaining t_pc] in Hw; lia.
Qed.

Lemma gather_is_Some st : is_Some (gather st) <-> all_returned st.
Proof. unfold gather, all_returned. apply mapM_is_Some. Qed.

(** ** What a returned task carries *)

Lemma produced_url u o : produced u o -> o_url o = u.
Proof.
  intros [r o' Hr|r1 r2 _].
  - destruct r as [st fu|e]; simpl in Hr.
    + by injection Hr as <-.
    + destruct (is_ClientResponseError e); [by injection Hr as <-|done].
  - by destruct r2.
Qed.

Lemma produced_status_or_error u o :
  produced u o -> is_Some (o_status o) \/ is_Some (o_error o).
Proof.
  intros [r o' Hr|r1 r2 _].
  - destruct r as [st fu|e]; simpl in Hr.
    + injection Hr as <-. left. by eexists.
    + destruct (is_ClientResponseError e); [|done].
      injection Hr as <-. right. by eexists.
  - destruct r2; [left|right]; by eexists.
Qed.

Lemma result_sound_fired st st' :
  Forall result_sound (tasks st) -> fired st st' -> Forall result_sound (tasks st').
Proof.
  intros Hall Hf.
  destruct Hf as [i u v Hi Hv|i u r o Hi Hr|i u r Hi Hr|i u r Hi];
    cbn [tasks]; apply Forall_insert; try done; unfold result_sound; cbn [t_pc t_url].
  - by eapply produced_head.
  - by eexists.
  - pose proof (Forall_lookup_1 _ _ _ _ Hall Hi) as [r1 Hr1].
    by eapply produced_get.
Qed.

Lemma result_sound_reachable budget urls st :
  reachable budget urls st -> Forall result_sound (tasks st).
Proof.
  unfold reachable. revert st. apply rtc_ind_r.
  - unfold init; cbn [tasks]. apply Forall_fmap, Forall_true. by intros u.
  - eauto using result_sound_fired, step_fired.
Qed.

(** The results of [gather] line up with the tasks. *)
Lemma gather_Forall2 st res :
  gather st = Some res ->
  Forall2 (fun t o => t_pc t = Returned o) (tasks st) res.
Proof.
  unfold gather. rewrite mapM_Some. intros H. eapply Forall2_impl; [exact H|].
  intros [u p] o. unfold result_of; cbn. destruct p; naive_solver.
Qed.

Lemma gather_urls st res :
  Forall result_sound (tasks st) ->
  gather st = Some res -> o_url <$> res = t_url <$> tasks st.
Proof.
  intros Hs Hg. apply gather_Forall2 in Hg.
  induction Hg as [|t o ts os Hto _ IH]; [done|].
  apply Forall_cons in Hs as [Ht Hts]. csimpl. f_equal; [|by apply IH].
  unfold result_sound in Ht. rewrite Hto in Ht. by apply produced_url.
Qed.

(** ** Progress: the loop never stalls before the end *)

Lemma first_event_Some s v k ts ev :
  first_event s v k ts = Some ev ->
  exists j t, ts !! j = Some t /\ task_event s v (k + j) t = Some ev.
Proof.
  revert k. induction ts as [|t ts IH]; intros k; simpl; [done|].
  destruct (task_event s v k t) as [ev'|] eqn:Ht.
  - intros [= <-]. exists O, t. by rewrite Nat.add_0_r.
  - intros Hev. destruct (IH _ Hev) as (j & t' & Hj & Hev').
    exists (S j), t'. by rewrite Nat.add_succ_r.
Qed.

Lemma first_event_None s v k ts :
  first_event s v k ts = None ->
  Forall (fun t => is_Some (result_of t) \/ (t_pc t = Pending /\ v = O)) ts.
Proof.
  revert k. induction ts as [|t ts IH]; intros k; simpl; [by constructor|].
  destruct (task_event s v k t) as [ev'|] eqn:Ht; [done|].
  intros Hts. constructor; [|by eapply IH].
  unfold task_event, result_of in *. destruct (t_pc t); try done.
  - right. by case_bool_decide.
  - left. by eexists.
Qed.

Lemma next_event_Some s st ev :
  next_event s st = Some ev ->
  exists i t, tasks st !! i = Some t /\ task_event s (sem_value st) i t = Some ev.
Proof. intros H. by apply first_event_Some in H. Qed.

Lemma task_event_fire s st i t ev :
  tasks st !! i = Some t ->
  task_event s (sem_value st) i t = Some ev ->
  is_Some (fire ev st).
Proof.
  intros Hi. destruct t as [u p]. unfold task_event; cbn [t_pc t_url].
  destruct p; try done.
  - case_bool_decide; [done|]. intros [= <-]. simpl. rewrite Hi.
    unfold acquire. destruct (sem_value st); [done|]. by eexists.
  - intros [= <-]. simpl. rewrite Hi.
    destruct (on_head_reply u (do_head s u)); by eexists.
  - intros [= <-]. simpl. rewrite Hi. by eexists.
Qed.

(** With a budget of at least one unit, a state in which nothing can move
    is a state in which every task has returned. *)
Lemma stalled_all_returned budget urls s st :
  (1 <= budget)%nat ->
  accounted budget urls st ->
  next_event s st = None ->
  all_returned st.
Proof.
  intros Hb [Hsem _] Hnone. apply first_event_None in Hnone.
  destruct (decide (sem_value st = O)) as [Hz|Hnz].
  - exfalso. assert (holders st = O) as Hh; [|lia].
    rewrite holders_sum. clear Hsem.
    induction Hnone as [|t ts Ht _ IH]; [done|]. csimpl. rewrite IH.
    unfold unit_count, holds_unit, result_of in *.
    destruct (t_pc t); try done; destruct Ht as [[? ?]|[? ?]]; done.
  - eapply Forall_impl; [exact Hnone|]. intros t [Ht|[_ ?]]; done.
Qed.

Lemma run_until_complete_reachable fuel s st :
  rtc step st (run_until_complete fuel s st).
Proof.
  revert st. induction fuel as [|fuel IH]; intros st; simpl; [done|].
  destruct (next_event s st) as [ev|] eqn:Hev; simpl; [|done].
  destruct (fire ev st) as [st'|] eqn:Hf; [|done].
  eapply rtc_l; [by exists ev|apply IH].
Qed.

Lemma first_event_done s v k ts :
  sum_list (remaining <$> ts) = O -> first_event s v k ts = None.
Proof.
  revert k. induction ts as [|t ts IH]; intros k Hw; simpl; [done|].
  csimpl in Hw. assert (remaining t = O) as Ht by lia.
  unfold task_event. unfold remaining in Ht.
  destruct (t_pc t); try done. apply IH. lia.
Qed.

Lemma run_until_complete_stalls fuel s st :
  (work_left st <= fuel)%nat ->
  next_event s (run_until_complete fuel s st) = None.
Proof.
  revert st. induction fuel as [|fuel IH]; intros st Hw; simpl.
  - apply first_event_done. unfold work_left in Hw. lia.
  - destruct (next_event s st) as [ev|] eqn:Hev; simpl; [|done].
    destruct (next_event_Some _ _ _ Hev) as (i & t & Hi & Ht).
    destruct (task_event_fire _ _ _ _ _ Hi Ht) as [st' Hf]. rewrite Hf.
    apply IH. apply fire_fired, fired_work_left in Hf. lia.
Qed.

(** ** The replies of one session decide the results *)

Lemma follows_fire s st ev st' :
  Forall (follows s) (tasks st) ->
  next_event s st = Some ev ->
  fire ev st = Some st' ->
  Forall (follows s) (tasks st').
Proof.
  intros Hall Hev Hf.
  destruct (next_event_Some _ _ _ Hev) as (i & [u p] & Hi & Ht).
  pose proof (Forall_lookup_1 _ _ _ _ Hall Hi) as Hfi.
  unfold task_event in Ht; cbn [t_pc t_url] in Ht.
  destruct p; try done.
  - case_bool_decide; [done|]. injection Ht as <-. simpl in Hf. rewrite Hi in Hf.
    unfold acquire in Hf. destruct (sem_value st); [done|].
    injection Hf as <-. cbn [tasks]. by apply Forall_insert.
  - injection Ht as <-. simpl in Hf. rewrite Hi in Hf.
    destruct (on_head_reply u (do_head s u)) eqn:Hr; injection Hf as <-;
      cbn [tasks]; apply Forall_insert; try done;
      unfold follows, check_url; cbn [t_pc t_url]; by rewrite ?Hr.
  - injection Ht as <-. simpl in Hf. rewrite Hi in Hf. injection Hf as <-.
    cbn [tasks]. apply Forall_insert; [done|].
    unfold follows in *; cbn [t_pc t_url] in *. unfold check_url. by rewrite Hfi.
Qed.

Lemma follows_run fuel s st :
  Forall (follows s) (tasks st) ->
  Forall (follows s) (tasks (run_until_complete fuel s st)).
Proof.
  revert st. induction fuel as [|fuel IH]; intros st Hall; simpl; [done|].
  destruct (next_event s st) as [ev|] eqn:Hev; simpl; [|done].
  destruct (fire ev st) as [st'|] eqn:Hf; [|done].
  eauto using follows_fire.
Qed.

Lemma follows_gather s st :
  Forall (follows s) (tasks st) ->
  all_returned st ->
  gather st = Some ((fun u => (check_url s u).1) <$> (t_url <$> tasks st)).
Proof.
  unfold gather, all_returned. intros Hall Hret.
  apply mapM_Some, Forall2_fmap_r, Forall2_fmap_r, Forall_Forall2_diag.
  eapply Forall_impl; [apply Forall_and; split; [exact Hall|exact Hret]|].
  intros t [Ht [o Ho]]. unfold follows, result_of in *.
  destruct (t_pc t); naive_solver.
Qed.

(** The checker run against a session returns, and returns what the
    sequential reading of [check_url] gives for each URL, in input order. *)
Lemma run_checker_spec budget s urls :
  (1 <= budget)%nat ->
  run_checker budget s urls = Some ((fun u => (check_url s u).1) <$> urls).
Proof.
  intros Hb. unfold run_checker.
  set (st := run_until_complete _ _ _).
  assert (reachable budget urls st) as Hreach by apply run_until_complete_reachable.
  pose proof (accounted_reachable _ _ _ Hreach) as Hacc.
  assert (all_returned st) as Hret.
  { apply (stalled_all_returned budget urls s); [done..|].
    apply run_until_complete_stalls. by rewrite work_left_init. }
  rewrite (follows_gather s); [by destruct Hacc as [_ ->]| |done].
  apply follows_run. unfold init; cbn [tasks].
  apply Forall_fmap, Forall_true. by intros u.
Qed.

Example fallback_scenario :
  run_checker 2 scenario_session scenario_urls
  = Some [Outcome "http://a/" (Some 200) (Some "http://a/") None;
          Outcome "http://b/" (Some 204) (Some "http://b/") None;
          Outcome "http://c/" (Some 200) (Some "http://c/") None;
          Outcome "http://d/" (Some 204) (Some "http://d/") None;
          Outcome "http://e/" (Some 200) (Some "http://e/") None].
Proof. vm_compute. reflexivity. Qed.

(** ** Counting occurrences *)

Lemma filter_eq_fmap_length {A B} `{EqDecision B} (f : A -> B) (l : list A) (u : B) :
  length (filter (fun x => f x = u) l) = length (filter (fun y => y = u) (f <$> l)).
Proof.
  induction l as [|a l IH]; [done|]. rewrite fmap_cons, !filter_cons.
  destruct (decide (f a = u)); csimpl; by rewrite IH.
Qed.

Lemma absent_filter_eq_length {B} `{EqDecision B} (l : list B) (u : B) :
  u ∉ l -> length (filter (fun y => y = u) l) = O.
Proof.
  induction l as [|b l IH]; [done|]. intros [Hne Hl]%not_elem_of_cons.
  rewrite filter_cons, decide_False by done. by apply IH.
Qed.

Lemma NoDup_filter_eq_length {B} `{EqDecision B} (l : list B) (u : B) :
  NoDup l -> u ∈ l -> length (filter (fun y => y = u) l) = 1%nat.
Proof.
  induction 1 as [|b l Hb Hl IH]; [by intros ?%elem_of_nil|].
  rewrite filter_cons. intros [->|Hu]%elem_of_cons.
  - rewrite decide_True by done. csimpl. by rewrite absent_filter_eq_length.
  - rewrite decide_False; [by apply IH|]. by intros ->.
Qed.

(** * The liveness checker *)

(** ** Fallback *)

(** C1 as stated fails at the URL [http://example.com/] of
    [redirecting_session]: the HEAD raises (a [ClientResponseError]), the
    GET would answer 200, and yet [check_url] issues no GET and returns
    the failure of the HEAD. *)
Lemma C1_no_fallback_on_response_error :
  do_head redirecting_session "http://example.com/"
    = Raise (Exn ClientResponseError (Some 302) "302, message='Too many redirects'") /\
  do_get redirecting_session "http://example.com/" = Resp 200 "http://example.com/" /\
  (GET "http://example.com/" ∉ (check_url redirecting_session "http://example.com/").2) /\
  (check_url redirecting_session "http://example.com/").1
    = Outcome "http://example.com/" (Some 302) None
        (Some "302, message='Too many redirects'").
Proof.
  repeat split. simpl. by intros [=]%list_elem_of_singleton.
Qed.

(** C1, amended: when the HEAD raises anything but a [ClientResponseError],
    a GET to the same URL follows, and if that GET answers, the outcome
    carries its status code and final URL and no error.  When the HEAD
    raises a [ClientResponseError], no GET is issued and the outcome
    carries the [status] attribute and the text of the exception. *)
Theorem C1_fallback_unless_response_error s url e :
  do_head s url = Raise e ->
  if is_ClientResponseError e
  then check_url s url
       = (Outcome url (exn_status e) None (Some (exn_str e)), [HEAD url])
  else (check_url s url).2 = [HEAD url; GET url] /\
       forall st fu, do_get s url = Resp st fu ->
         (check_url s url).1 = Outcome url (Some st) (Some fu) None.
Proof.
  intros He. unfold check_url. rewrite He. simpl.
  destruct (is_ClientResponseError e); [done|].
  split; [done|]. by intros st fu ->.
Qed.

Lemma C1_fallback_witness :
  let s := Session (fun _ => Raise (Exn OtherException None "Server disconnected"))
                   (fun _ => Resp 200 "http://example.com/") in
  (check_url s "http://example.com/").2
    = [HEAD "http://example.com/"; GET "http://example.com/"] /\
  forall st fu, do_get s "http://example.com/" = Resp st fu ->
    (check_url s "http://example.com/").1
      = Outcome "http://example.com/" (Some st) (Some fu) None.
Proof.
  exact (C1_fallback_unless_response_error
           (Session (fun _ => Raise (Exn OtherException None "Server disconnected"))
                    (fun _ => Resp 200 "http://example.com/"))
           "http://example.com/" (Exn OtherException None "Server disconnected")
           eq_refl).
Defined.

(** ** Shape of the outcomes *)

(** C4: every outcome of the checker has a status code or an error
    description: the dict returned by [check_url] against any session,
    the result of every task that has returned in any state the event loop
    can reach, and so every element of what [gather] hands back. *)
Theorem C4_status_or_error :
  (forall s url,
     is_Some (o_status (check_url s url).1) \/ is_Some (o_error (check_url s url).1)) /\
  (forall budget urls st t o,
     reachable budget urls st -> t ∈ tasks st -> t_pc t = Returned o ->
     is_Some (o_status o) \/ is_Some (o_error o)) /\
  (forall budget urls st res,
     reachable budget urls st -> gather st = Some res ->
     Forall (fun o => is_Some (o_status o) \/ is_Some (o_error o)) res).
Proof.
  assert (forall budget urls st t o,
     reachable budget urls st -> t ∈ tasks st -> t_pc t = Returned o ->
     is_Some (o_status o) \/ is_Some (o_error o)) as Htask.
  { intros budget urls st t o Hreach Ht Hp.
    pose proof (result_sound_reachable _ _ _ Hreach) as Hs.
    rewrite Forall_forall in Hs. specialize (Hs _ Ht).
    unfold result_sound in Hs. rewrite Hp in Hs.
    by eapply produced_status_or_error. }
  split; [|split; [exact Htask|]].
  - intros s url. unfold check_url.
    destruct (on_head_reply url (do_head s url)) as [o|] eqn:Hr; cbn [fst].
    + eapply produced_status_or_error, produced_head, Hr.
    + eapply produced_status_or_error, produced_get, Hr.
  - intros budget urls st res Hreach Hg. apply gather_Forall2 in Hg.
    apply Forall_forall. intros o Ho.
    destruct (list_elem_of_lookup_1 _ _ Ho) as [i Hi].
    destruct (Forall2_lookup_r _ _ _ _ _ Hg Hi) as (t & Hti & Hp).
    eapply Htask; [exact Hreach| |exact Hp]. by eapply list_elem_of_lookup_2.
Qed.

Lemma C4_status_or_error_witness :
  Forall (fun o => is_Some (o_status o) \/ is_Some (o_error o))
    [Outcome "http://example.com/" (Some 302) None
       (Some "302, message='Too many redirects'")].
Proof.
  refine (proj2 (proj2 C4_status_or_error) 1%nat ["http://example.com/"]
            (run_until_complete 3 redirecting_session (init 1 ["http://example.com/"]))
            _ _ eq_refl).
  apply run_until_complete_reachable.
Defined.

(** ** Double failure *)

(** C5 as stated fails at the URL [http://example.com/] of
    [timing_out_session]: the HEAD and the fallback GET both fail, the
    outcome has no status code, and its error description is the empty
    string. *)
Lemma C5_empty_error_description :
  do_head timing_out_session "http://example.com/" = Raise (Exn OtherException None EmptyString) /\
  do_get timing_out_session "http://example.com/" = Raise (Exn OtherException None EmptyString) /\
  (check_url timing_out_session "http://example.com/").2
    = [HEAD "http://example.com/"; GET "http://example.com/"] /\
  o_status (check_url timing_out_session "http://example.com/").1 = None /\
  o_error (check_url timing_out_session "http://example.com/").1 = Some EmptyString.
Proof. by repeat split. Qed.

(** C5, amended: when the HEAD fails so that the fallback runs, and the
    fallback GET fails too, the outcome has no status code, no final URL,
    and an error description that is the text of the GET's exception
    (whatever that text is). *)
Theorem C5_double_failure s url e1 e2 :
  do_head s url = Raise e1 ->
  is_ClientResponseError e1 = false ->
  do_get s url = Raise e2 ->
  check_url s url
  = (Outcome url None None (Some (exn_str e2)), [HEAD url; GET url]).
Proof.
  intros H1 Hc H2. unfold check_url. rewrite H1. simpl. by rewrite Hc, H2.
Qed.

Lemma C5_double_failure_witness :
  check_url
    (Session (fun _ => Raise (Exn OtherException None "Server disconnected"))
             (fun _ => Raise (Exn OtherException None "Cannot connect to host")))
    "http://example.com/"
  = (Outcome "http://example.com/" None None (Some "Cannot connect to host"),
     [HEAD "http://example.com/"; GET "http://example.com/"]).
Proof.
  exact (C5_double_failure
           (Session (fun _ => Raise (Exn OtherException None "Server disconnected"))
                    (fun _ => Raise (Exn OtherException None "Cannot connect to host")))
           "http://example.com/"
           (Exn OtherException None "Server disconnected")
           (Exn OtherException None "Cannot connect to host")
           eq_refl eq_refl eq_refl).
Defined.

(** ** Completeness and order of the results *)

Lemma gather_complete budget urls st res :
  reachable budget urls st -> gather st = Some res ->
  o_url <$> res = urls /\ length res = length urls /\ all_returned st.
Proof.
  intros Hreach Hg.
  pose proof (accounted_reachable _ _ _ Hreach) as [_ Hurls].
  pose proof (gather_urls _ _ (result_sound_reachable _ _ _ Hreach) Hg) as Hres.
  rewrite Hurls in Hres. split; [done|]. split.
  - by rewrite <- Hres, length_fmap.
  - apply gather_is_Some. by eexists.
Qed.

Lemma not_returned_can_step budget urls st :
  (1 <= budget)%nat -> reachable budget urls st ->
  ~ all_returned st -> exists st', step st st'.
Proof.
  intros Hb Hreach Hnot.
  set (s := Session (fun _ => Resp 200 EmptyString) (fun _ => Resp 200 EmptyString)).
  destruct (next_event s st) as [ev|] eqn:Hev.
  - destruct (next_event_Some _ _ _ Hev) as (i & t & Hi & Ht).
    destruct (task_event_fire _ _ _ _ _ Hi Ht) as [st' Hf].
    exists st', ev. done.
  - destruct Hnot. eapply stalled_all_returned; eauto using accounted_reachable.
Qed.

Lemma work_left_reachable budget urls st :
  reachable budget urls st -> (work_left st <= 3 * length urls)%nat.
Proof.
  unfold reachable. revert st. apply rtc_ind_r.
  - by rewrite work_left_init.
  - intros st st' _ Hstep%step_fired%fired_work_left. lia.
Qed.

Lemma run_checker_complete budget s urls :
  (1 <= budget)%nat ->
  exists res,
    run_checker budget s urls = Some res /\
    length res = length urls /\ o_url <$> res = urls.
Proof.
  intros Hb. eexists. split; [by apply run_checker_spec|].
  rewrite length_fmap. split; [done|].
  rewrite <- list_fmap_compose. rewrite <- (list_fmap_id urls) at 2.
  apply list_fmap_ext. intros _ u _. simpl. unfold check_url.
  destruct (on_head_reply u (do_head s u)) as [o|] eqn:Hr; cbn [fst].
  - eapply produced_url, produced_head, Hr.
  - eapply produced_url, produced_get, Hr.
Qed.

(** C2: for a budget of at least one unit the checker returns, with
    exactly one outcome per input URL: the [url] fields of the outcomes
    are the input list, so there are as many outcomes as URLs and, when
    the input URLs are distinct, each is the [url] of exactly one outcome.
    This holds for [bulk_check_urls] (budget [CONCURRENCY]) against any
    session and for every interleaving of the tasks: [gather] has a
    result only in a state where all tasks have returned, a state with a
    task that has not returned can always move, and each move uses up
    one of at most three per task. *)
Theorem C2_one_outcome_per_url budget urls :
  (1 <= budget)%nat ->
  (forall s, exists res,
     run_checker budget s urls = Some res /\
     length res = length urls /\ o_url <$> res = urls) /\
  (forall s, exists res,
     bulk_check_urls s urls = Some res /\
     length res = length urls /\ o_url <$> res = urls) /\
  (forall st res,
     reachable budget urls st -> gather st = Some res ->
     all_returned st /\
     length res = length urls /\ o_url <$> res = urls /\
     (NoDup urls -> forall u, u ∈ urls ->
        length (filter (fun o => o_url o = u) res) = 1%nat)) /\
  (forall st,
     reachable budget urls st -> ~ all_returned st -> exists st', step st st') /\
  (forall st st',
     reachable budget urls st -> step st st' ->
     (work_left st' < work_left st <= 3 * length urls)%nat).
Proof.
  intros Hb.
  split; [intros s; by apply run_checker_complete|]. split.
  { intros s. apply run_checker_complete. unfold CONCURRENCY. lia. }
  split; [|split].
  - intros st res Hreach Hg.
    destruct (gather_complete _ _ _ _ Hreach Hg) as (Hu & Hl & Hret).
    repeat split; try done. intros Hnd u Hin.
    rewrite filter_eq_fmap_length, Hu. by apply NoDup_filter_eq_length.
  - intros st. by apply not_returned_can_step.
  - intros st st' Hreach Hstep. split.
    + by apply fired_work_left, step_fired.
    + by eapply work_left_reachable.
Qed.

Lemma C2_one_outcome_per_url_witness :
  exists res,
    run_checker 2 redirecting_session ["http://a/"; "http://b/"; "http://c/"] = Some res /\
    length res = 3%nat /\ o_url <$> res = ["http://a/"; "http://b/"; "http://c/"].
Proof.
  refine (proj1 (C2_one_outcome_per_url 2 ["http://a/"; "http://b/"; "http://c/"] _)
            redirecting_session).
  lia.
Defined.

(** ** The semaphore *)

Lemma all_returned_holders st : all_returned st -> holders st = O.
Proof.
  rewrite holders_sum. unfold all_returned.
  induction (tasks st) as [|t ts IH]; [done|].
  intros [[o Ho] Hts]%Forall_cons. csimpl. rewrite (IH Hts).
  unfold unit_count, holds_unit, result_of in *. by destruct (t_pc t).
Qed.

(** C3: in every state of a run with budget [B], the tasks inside
    [async with semaphore] are at most [B], and they are exactly the units
    missing from the counter; a task that has returned, by whichever path,
    holds no unit, and once every task has returned the counter is back
    at [B].  The returns after a raised request are steps like the
    others: each hands its unit back in the step that records the
    result. *)
Theorem C3_budget_respected budget urls st :
  reachable budget urls st ->
  (holders st <= budget)%nat /\
  (sem_value st + holders st = budget)%nat /\
  (forall t, t ∈ tasks st -> is_Some (result_of t) -> holds_unit t = false) /\
  (all_returned st -> sem_value st = budget) /\
  (forall i r st', fire (EvGet i r) st = Some st' ->
     sem_value st' = S (sem_value st) /\ S (holders st') = holders st) /\
  (forall i e st', fire (EvHead i (Raise e)) st = Some st' ->
     if is_ClientResponseError e
     then sem_value st' = S (sem_value st) /\ S (holders st') = holders st
     else sem_value st' = sem_value st /\ holders st' = holders st).
Proof.
  intros Hreach. pose proof (accounted_reachable _ _ _ Hreach) as [Hsem Hurls].
  split; [lia|]. split; [done|]. split; [|split; [|split]].
  - intros t _ [o Ho]. unfold result_of, holds_unit in *. by destruct (t_pc t).
  - intros Hret%all_returned_holders. lia.
  - intros i r st'. simpl.
    destruct (tasks st !! i) as [[u []]|] eqn:Hi; try done. intros [= <-].
    pose proof (holders_insert (S (sem_value st)) st i _
                  (Task u (Returned (on_get_reply u r))) Hi) as Hh.
    cbn [sem_value unit_count holds_unit t_pc] in *.
    unfold release, set_task; cbn [sem_value tasks] in *. split; [done|lia].
  - intros i e st'. simpl.
    destruct (tasks st !! i) as [[u []]|] eqn:Hi; try done.
    destruct (is_ClientResponseError e); intros [= <-].
    + pose proof (holders_insert (S (sem_value st)) st i _
                    (Task u (Returned (Outcome u (exn_status e) None (Some (exn_str e))))) Hi) as Hh.
      cbn [sem_value unit_count holds_unit t_pc] in *.
      unfold release, set_task; cbn [sem_value tasks] in *. split; [done|lia].
    + pose proof (holders_insert (sem_value st) st i _ (Task u AwaitGet) Hi) as Hh.
      cbn [sem_value unit_count holds_unit t_pc] in *.
      unfold set_task; cbn [sem_value tasks] in *. split; [done|lia].
Qed.

Lemma C3_budget_respected_witness :
  (holders (LoopState 0 [Task "http://a/" AwaitHead; Task "http://b/" Pending]) <= 1)%nat.
Proof.
  refine (proj1 (C3_budget_respected 1 ["http://a/"; "http://b/"]
                   (LoopState 0 [Task "http://a/" AwaitHead; Task "http://b/" Pending]) _)).
  eapply rtc_l; [|apply rtc_refl]. exists (EvAcquire 0). reflexivity.
Defined.

(** ** Order of the results *)

(** C10: the outcomes come back in the order of the input: the [url] of
    the i-th outcome is the i-th input URL, for [bulk_check_urls] against
    any session and for the result of [gather] after any interleaving of
    the tasks. *)
Theorem C10_input_order :
  (forall s urls, exists res,
     bulk_check_urls s urls = Some res /\
     forall i, o_url <$> res !! i = urls !! i) /\
  (forall budget urls st res,
     reachable budget urls st -> gather st = Some res ->
     forall i, o_url <$> res !! i = urls !! i).
Proof.
  split.
  - intros s urls.
    destruct (run_checker_complete CONCURRENCY s urls) as (res & Hres & _ & Hu);
      [unfold CONCURRENCY; lia|].
    exists res. split; [done|]. intros i. by rewrite <- list_lookup_fmap, Hu.
  - intros budget urls st res Hreach Hg i.
    destruct (gather_complete _ _ _ _ Hreach Hg) as (Hu & _ & _).
    by rewrite <- list_lookup_fmap, Hu.
Qed.

Lemma C10_input_order_witness :
  o_url <$> [Outcome "http://a/" (Some 200) (Some "http://a/") None;
             Outcome "http://b/" None None (Some EmptyString)] !! 1%nat
  = ["http://a/"; "http://b/"] !! 1%nat.
Proof.
  refine (proj2 C10_input_order 1%nat ["http://a/"; "http://b/"]
            (LoopState 1 [Task "http://a/" (Returned (Outcome "http://a/" (Some 200) (Some "http://a/") None));
                          Task "http://b/" (Returned (Outcome "http://b/" None None (Some EmptyString)))])
            _ _ eq_refl 1%nat).
  eapply rtc_l; [exists (EvAcquire 1); reflexivity|].
  eapply rtc_l; [exists (EvHead 1 (Raise (Exn OtherException None EmptyString))); reflexivity|].
  eapply rtc_l; [exists (EvGet 1 (Raise (Exn OtherException None EmptyString))); reflexivity|].
  eapply rtc_l; [exists (EvAcquire 0); reflexivity|].
  eapply rtc_l; [exists (EvHead 0 (Resp 200 "http://a/")); reflexivity|].
  apply rtc_refl.
Defined.

(** * The archive URL source *)

Lemma first_seen_filter (P : option hkey -> Prop) `{!forall k, Decision (P k)} l :
  first_seen (filter (fun y => P (py_hash_key y)) l)
  = filter (fun y => P (py_hash_key y)) (first_seen l).
Proof.
  induction l as [|x l IH]; [done|]. cbn [first_seen].
  rewrite !filter_cons. destruct (decide (P (py_hash_key x))) as [Hx|Hx].
  - cbn [first_seen]. rewrite IH. f_equal.
    rewrite !list_filter_filter. apply list_filter_iff. intros y. tauto.
  - rewrite IH, list_filter_filter. apply list_filter_iff.
    intros y. split; [|tauto]. intros Hy. split; [done|]. congruence.
Qed.

Lemma first_seen_idemp l : first_seen (first_seen l) = first_seen l.
Proof.
  induction l as [|x l IH]; [done|]. cbn [first_seen]. f_equal.
  pose proof (first_seen_filter (fun k => k ≠ py_hash_key x) (first_seen l)) as Hf.
  cbv beta in Hf. rewrite Hf, IH. by apply list_filter_filter_l.
Qed.

Lemma first_seen_sublist l : first_seen l `sublist_of` l.
Proof.
  induction l as [|x l IH]; [done|]. cbn [first_seen]. apply sublist_skip.
  etrans; [apply sublist_filter|done].
Qed.

Lemma first_seen_NoDup_keys l : NoDup (py_hash_key <$> first_seen l).
Proof.
  induction l as [|x l IH]; cbn [first_seen]; [constructor|].
  rewrite fmap_cons. apply NoDup_cons. split.
  - intros (y & Hk & [Hy _]%list_elem_of_filter)%list_elem_of_fmap. congruence.
  - eapply sublist_NoDup; [exact IH|]. apply fmap_sublist, sublist_filter.
Qed.

Lemma filter_other_keys_id x (l : list json) :
  py_hash_key x ∉ py_hash_key <$> l ->
  filter (fun y => py_hash_key y ≠ py_hash_key x) l = l.
Proof.
  induction l as [|y l IH]; [done|]. rewrite fmap_cons.
  intros [Hxy Hx]%not_elem_of_cons.
  rewrite filter_cons_True by congruence. f_equal. by apply IH.
Qed.

Lemma first_seen_NoDup l : NoDup (py_hash_key <$> l) -> first_seen l = l.
Proof.
  induction l as [|x l IH]; [done|]. rewrite fmap_cons.
  intros [Hx Hl]%NoDup_cons. cbn [first_seen]. rewrite (IH Hl). f_equal.
  by apply filter_other_keys_id.
Qed.

Lemma unseen_empty u : unseen ∅ u.
Proof. unfold unseen. destruct (py_hash_key u); set_solver. Qed.

Lemma filter_unseen_empty (l : list json) : filter (unseen ∅) l = l.
Proof.
  induction l as [|x l IH]; [done|].
  rewrite filter_cons_True by apply unseen_empty. by rewrite IH.
Qed.

Lemma filter_unseen_insert k seen (l : list json) :
  filter (unseen ({[k]} ∪ seen)) l
  = filter (fun y => py_hash_key y ≠ Some k) (filter (unseen seen) l).
Proof.
  rewrite list_filter_filter. apply list_filter_iff. intros u.
  unfold unseen. destruct (py_hash_key u) as [k'|]; [|by split].
  rewrite not_elem_of_union, not_elem_of_singleton.
  split; [intros [? ?]; split; congruence|intros [? ?]; split; congruence].
Qed.

(** The loop of [get_wayback_urls_via_cdx] computes [first_seen]. *)
Lemma dedupe_spec seen out urls :
  Forall hashable urls ->
  dedupe seen out urls = Some (out ++ first_seen (filter (unseen seen) urls))%list.
Proof.
  intros Hh. revert seen out.
  induction Hh as [|u urls [k Hk] _ IH]; intros seen out; simpl.
  { by rewrite app_nil_r. }
  rewrite Hk. simpl.
  assert (unseen seen u <-> k ∉ seen) as Hu by (unfold unseen; by rewrite Hk).
  destruct (decide (k ∈ seen)) as [Hin|Hout].
  - rewrite filter_cons_False by tauto. apply IH.
  - rewrite filter_cons_True by tauto. rewrite IH, <- app_assoc.
    cbn [first_seen app]. rewrite Hk.
    pose proof (first_seen_filter (fun o => o ≠ Some k) (filter (unseen seen) urls)) as Hf.
    cbv beta in Hf. by rewrite filter_unseen_insert, Hf.
Qed.

Lemma dedupe_unhashable seen out urls :
  ~ Forall hashable urls -> dedupe seen out urls = None.
Proof.
  revert seen out. induction urls as [|u urls IH]; intros seen out Hn; simpl.
  { destruct Hn. constructor. }
  destruct (py_hash_key u) as [k|] eqn:Hk; [|done]. simpl.
  assert (~ Forall hashable urls) as Hn'.
  { intros Hall. apply Hn. constructor; [by exists k|done]. }
  destruct (decide (k ∈ seen)); by apply IH.
Qed.

(** The loop of [main] computes a prefix of [first_seen]. *)
Lemma limit_dedupe_spec max seen uniq urls :
  Forall hashable urls ->
  (Z.of_nat (length uniq) < max)%Z ->
  limit_dedupe max seen uniq urls
  = Some (take (Z.to_nat max) (uniq ++ first_seen (filter (unseen seen) urls)))%list.
Proof.
  intros Hh. revert seen uniq.
  induction Hh as [|u urls [k Hk] _ IH]; intros seen uniq Hlen; simpl.
  { rewrite app_nil_r, take_ge by lia. done. }
  rewrite Hk. simpl.
  assert (unseen seen u <-> k ∉ seen) as Hu by (unfold unseen; by rewrite Hk).
  destruct (decide (k ∈ seen)) as [Hin|Hout].
  - rewrite bool_decide_eq_false_2 by lia.
    rewrite filter_cons_False by tauto. by apply IH.
  - rewrite filter_cons_True by tauto. cbn [first_seen]. rewrite Hk.
    pose proof (first_seen_filter (fun o => o ≠ Some k) (filter (unseen seen) urls)) as Hf.
    cbv beta in Hf. rewrite <- Hf, <- filter_unseen_insert.
    replace (uniq ++ u :: first_seen (filter (unseen ({[k]} ∪ seen)) urls))%list
      with ((uniq ++ [u]) ++ first_seen (filter (unseen ({[k]} ∪ seen)) urls))%list
      by (by rewrite <- app_assoc).
    case_bool_decide as Hcap.
    + rewrite take_app_length'; [done|]. rewrite length_app in *. simpl in *. lia.
    + apply IH. lia.
Qed.

Lemma first_seen_hashable l : Forall hashable l -> Forall hashable (first_seen l).
Proof.
  intros Hl. apply Forall_forall. intros x Hx.
  rewrite Forall_forall in Hl. apply Hl.
  eapply elem_of_sublist; [exact Hx|apply first_seen_sublist].
Qed.

(** What the remote query returns, in terms of the records it received. *)
Lemma cdx_result requests_get domain limit :
  get_wayback_urls_via_cdx requests_get domain limit
  = match raw_urls (requests_get (CDX_API domain) limit) with
    | Some raw => if decide (Forall hashable raw) then first_seen raw else []
    | None => []
    end.
Proof.
  unfold get_wayback_urls_via_cdx, cdx_try, raw_urls.
  destruct (requests_get (CDX_API domain) limit) as [e|sc body]; [done|].
  case_bool_decide; [done|].
  destruct body as [data|]; [|done]. simpl.
  destruct (py_iter data) as [rows|]; [|done]. simpl.
  destruct (collect_urls O rows []) as [raw|]; [|done]. simpl.
  destruct (decide (Forall hashable raw)) as [Hh|Hh].
  - by rewrite dedupe_spec, filter_unseen_empty.
  - by rewrite dedupe_unhashable.
Qed.

Lemma cdx_result_canonical requests_get domain limit :
  let w := get_wayback_urls_via_cdx requests_get domain limit in
  Forall hashable w /\ first_seen w = w.
Proof.
  cbv zeta. rewrite cdx_result.
  destruct (raw_urls _) as [raw|]; [|by split].
  destruct (decide (Forall hashable raw)); [|by split].
  split; [by apply first_seen_hashable|apply first_seen_idemp].
Qed.

(** Once [max] unique entries are collected the loop is left: what
    follows in the list is not looked at. *)
Lemma limit_dedupe_stops max seen uniq l rest :
  Forall hashable l ->
  (Z.of_nat (length uniq) < max)%Z ->
  (max <= Z.of_nat (length uniq + length (first_seen (filter (unseen seen) l))))%Z ->
  limit_dedupe max seen uniq (l ++ rest) = limit_dedupe max seen uniq l.
Proof.
  intros Hh. revert seen uniq.
  induction Hh as [|u l [k Hk] _ IH]; intros seen uniq Hlen Hcap.
  { simpl in Hcap. lia. }
  cbn [app limit_dedupe]. rewrite Hk. simpl.
  assert (unseen seen u <-> k ∉ seen) as Hu by (unfold unseen; by rewrite Hk).
  destruct (decide (k ∈ seen)) as [Hin|Hout].
  - rewrite bool_decide_eq_false_2 by lia.
    rewrite filter_cons_False in Hcap by tauto. by apply IH.
  - rewrite filter_cons_True in Hcap by tauto. cbn [first_seen] in Hcap.
    rewrite Hk in Hcap.
    pose proof (first_seen_filter (fun o => o ≠ Some k) (filter (unseen seen) l)) as Hf.
    cbv beta in Hf. rewrite <- Hf, <- filter_unseen_insert in Hcap.
    case_bool_decide as Hfull; [done|].
    apply IH; rewrite length_app in *; simpl in *; lia.
Qed.

(** C6: for a positive maximum count, the remote query followed by the
    limit-and-dedupe loop of [main] yields a list without duplicates
    (no two entries are the same key of a Python set, so no two are
    equal), of length at most the maximum: the first [max] entries of
    what the query returned, which are the first [max] first occurrences,
    in order of appearance, of the URLs of the records received; they are
    strings when the records carry strings.  When the maximum is reached,
    the loop stops: whatever would follow is not looked at. *)
Theorem C6_archive_urls_unique_capped requests_get domain max :
  (0 < max)%Z ->
  exists out,
    limit_dedupe max ∅ [] (get_wayback_urls_via_cdx requests_get domain max) = Some out /\
    NoDup out /\
    NoDup (py_hash_key <$> out) /\
    (Z.of_nat (length out) <= max)%Z /\
    out = take (Z.to_nat max) (get_wayback_urls_via_cdx requests_get domain max) /\
    (forall raw,
       raw_urls (requests_get (CDX_API domain) max) = Some raw ->
       Forall hashable raw ->
       out = take (Z.to_nat max) (first_seen raw) /\
       (Forall is_str raw -> Forall is_str out)) /\
    (forall rest,
       Z.of_nat (length out) = max ->
       limit_dedupe max ∅ [] (out ++ rest) = Some out).
Proof.
  intros Hmax.
  destruct (cdx_result_canonical requests_get domain max) as [Hh Hid].
  set (w := get_wayback_urls_via_cdx requests_get domain max) in *.
  exists (take (Z.to_nat max) w).
  assert (NoDup (py_hash_key <$> take (Z.to_nat max) w)) as Hnd.
  { eapply sublist_NoDup; [apply (first_seen_NoDup_keys w)|].
    rewrite Hid. apply fmap_sublist, sublist_take. }
  pose proof (first_seen_NoDup _ Hnd) as Hid'.
  split; [|split; [|split; [|split; [|split; [|split]]]]]; try done.
  - rewrite limit_dedupe_spec by (done || simpl; lia).
    by rewrite filter_unseen_empty, Hid.
  - by eapply NoDup_fmap_1.
  - rewrite length_take. lia.
  - intros raw Hraw Hhr. subst w. rewrite cdx_result, Hraw.
    rewrite decide_True by done. split; [done|].
    intros Hstr. apply Forall_take. apply Forall_forall. intros x Hx.
    rewrite Forall_forall in Hstr. apply Hstr.
    eapply elem_of_sublist; [exact Hx|apply first_seen_sublist].
  - intros rest Hfull.
    rewrite limit_dedupe_stops.
    + rewrite limit_dedupe_spec; [|by apply Forall_take|simpl; lia].
      rewrite filter_unseen_empty, Hid'. cbn [app].
      rewrite take_ge; [done|]. rewrite length_take. lia.
    + by apply Forall_take.
    + simpl. lia.
    + rewrite filter_unseen_empty, Hid'. simpl. lia.
Qed.

Lemma C6_archive_urls_unique_capped_witness :
  exists out,
    limit_dedupe 2 ∅ []
      (get_wayback_urls_via_cdx
         (fun _ _ => CdxResponse 200
            (Some (JArr [JStr "http://a/"; JStr "http://a/"; JStr "http://b/"; JStr "http://c/"])))
         "example.com" 2) = Some out /\
    NoDup out /\
    NoDup (py_hash_key <$> out) /\
    (Z.of_nat (length out) <= 2)%Z /\
    out = take (Z.to_nat 2)
            (get_wayback_urls_via_cdx
               (fun _ _ => CdxResponse 200
                  (Some (JArr [JStr "http://a/"; JStr "http://a/"; JStr "http://b/"; JStr "http://c/"])))
               "example.com" 2) /\
    (forall raw,
       raw_urls (CdxResponse 200
         (Some (JArr [JStr "http://a/"; JStr "http://a/"; JStr "http://b/"; JStr "http://c/"])))
       = Some raw ->
       Forall hashable raw ->
       out = take (Z.to_nat 2) (first_seen raw) /\
       (Forall is_str raw -> Forall is_str out)) /\
    (forall rest,
       Z.of_nat (length out) = 2%Z ->
       limit_dedupe 2 ∅ [] (out ++ rest) = Some out).
Proof.
  refine (C6_archive_urls_unique_capped
            (fun _ _ => CdxResponse 200
               (Some (JArr [JStr "http://a/"; JStr "http://a/"; JStr "http://b/"; JStr "http://c/"])))
            "example.com" 2 _).
  lia.
Defined.

Example dedup_scenario :
  limit_dedupe 500 ∅ []
    (get_wayback_urls_via_cdx
       (fun _ _ => CdxResponse 200
          (Some (JArr [JStr "http://a/"; JStr "http://a/"; JStr "http://b/"])))
       "example.com" 500)
  = Some [JStr "http://a/"; JStr "http://b/"].
Proof. reflexivity. Qed.

(** ** Records *)

Lemma collect_records i acc (records : list (bool * string)) :
  i ≠ O ->
  collect_urls i ((fun r => record_of r.1 r.2) <$> records) acc
  = Some (acc ++ ((fun r => JStr r.2) <$> records))%list.
Proof.
  intros Hi. revert i acc Hi.
  induction records as [|[bare url] records IH]; intros i acc Hi; csimpl.
  { by rewrite app_nil_r. }
  rewrite bool_decide_eq_false_2 by done. cbn [andb].
  destruct bare; cbn [record_of]; rewrite IH by done; by rewrite <- app_assoc.
Qed.

(** C7: on the response [[["original"], ["http://example.com/x"],
    ["http://example.com/x"]]] the archive source yields exactly
    [["http://example.com/x"]]: the first loop skips the header and takes
    one URL from each of the two records, the second collapses the
    duplicate, and the loop of [main] leaves the result as it is.  More
    generally, after a header every record that is a one-element array or
    a bare string yields its URL, in order. *)
Theorem C7_example_response :
  raw_urls (CdxResponse 200 (Some example_response))
    = Some [JStr "http://example.com/x"; JStr "http://example.com/x"] /\
  get_wayback_urls_via_cdx (fun _ _ => CdxResponse 200 (Some example_response))
    "example.com" 500 = [JStr "http://example.com/x"] /\
  limit_dedupe 500 ∅ []
    (get_wayback_urls_via_cdx (fun _ _ => CdxResponse 200 (Some example_response))
       "example.com" 500) = Some [JStr "http://example.com/x"] /\
  (forall records : list (bool * string),
     raw_urls (CdxResponse 200
       (Some (JArr (JArr [JStr "original"] :: ((fun r => record_of r.1 r.2) <$> records)))))
     = Some ((fun r => JStr r.2) <$> records)).
Proof.
  split; [reflexivity|]. split; [reflexivity|]. split; [reflexivity|].
  intros records. unfold raw_urls. rewrite bool_decide_eq_false_2 by (by intros []).
  cbn. by rewrite collect_records.
Qed.

(** ** Failures of the remote query *)

Lemma failed_query_empty requests_get domain limit :
  source_failed (requests_get (CDX_API domain) limit) ->
  get_wayback_urls_via_cdx requests_get domain limit = [].
Proof.
  intros Hf. unfold get_wayback_urls_via_cdx, cdx_try.
  destruct Hf as [e|sc body Hsc|sc|data Hit|data rows Hit Hrows|data rows urls Hit Hrows Hh].
  - done.
  - by rewrite bool_decide_eq_true_2.
  - by case_bool_decide.
  - rewrite bool_decide_eq_false_2 by (by intros []). simpl. by rewrite Hit.
  - rewrite bool_decide_eq_false_2 by (by intros []). simpl. rewrite Hit. simpl.
    by rewrite Hrows.
  - rewrite bool_decide_eq_false_2 by (by intros []). simpl. rewrite Hit. simpl.
    rewrite Hrows. simpl. by rewrite dedupe_unhashable.
Qed.

(** C8: whenever the remote query fails - the request raises, the status
    is not 200, the body is not JSON, or the decoded value cannot be
    walked as a list of records - [get_wayback_urls_via_cdx] returns the
    empty list, which is also what it returns for a well-formed response
    with no record. *)
Theorem C8_failure_is_empty requests_get domain limit :
  source_failed (requests_get (CDX_API domain) limit) ->
  get_wayback_urls_via_cdx requests_get domain limit = [] /\
  get_wayback_urls_via_cdx requests_get domain limit
  = get_wayback_urls_via_cdx (fun _ _ => CdxResponse 200 (Some (JArr []))) domain limit.
Proof.
  intros Hf. rewrite failed_query_empty by done. split; reflexivity.
Qed.

Lemma C8_failure_is_empty_witness :
  get_wayback_urls_via_cdx (fun _ _ => CdxResponse 200 None) "example.com" 500 = [] /\
  get_wayback_urls_via_cdx (fun _ _ => CdxResponse 200 None) "example.com" 500
  = get_wayback_urls_via_cdx (fun _ _ => CdxResponse 200 (Some (JArr []))) "example.com" 500.
Proof.
  exact (C8_failure_is_empty (fun _ _ => CdxResponse 200 None) "example.com" 500
           (failed_json 200)).
Defined.

(** * The run *)

(** C9: the code does not keep to it.  The write of the output file is
    not the only failure that ends a run: with [--run-dig] on a machine
    where [dig] cannot be executed the [PermissionError] of the launch
    leaves [run_external_tool] and [main]; without a usable resolver
    configuration the exception of [dns.resolver.Resolver()] leaves
    [dns_enum] and [main]; and an archive record whose first element is a
    number gets through [get_wayback_urls_via_cdx] and makes line 183
    raise.  In each of these runs the output file could have been
    written, and nothing is written.  A failure of the write itself does
    end the run with a nonzero exit, as the claim says. *)
Theorem C9_unrecovered_failures :
  ((forall result, w_write dig_denied_world (arg_out dig_arguments) result = None) /\
   main strip_plain splitlines_plain dig_denied_world dig_arguments
     = Abort (Exn OtherException None "[Errno 13] Permission denied: 'dig'") /\
   exit_status (main strip_plain splitlines_plain dig_denied_world dig_arguments)
     = Some 1%Z) /\
  ((forall result, w_write no_resolver_world (arg_out plain_arguments) result = None) /\
   main strip_plain splitlines_plain no_resolver_world plain_arguments
     = Abort (Exn OtherException None
                "Resolver configuration could not be read or specified no nameservers.") /\
   exit_status (main strip_plain splitlines_plain no_resolver_world plain_arguments)
     = Some 1%Z) /\
  ((forall result, w_write numeric_record_world (arg_out plain_arguments) result = None) /\
   get_wayback_urls_via_cdx (w_cdx_get numeric_record_world) "example.com" 500 = [JNum 1] /\
   main strip_plain splitlines_plain numeric_record_world plain_arguments
     = Abort (AttributeError "object has no attribute 'startswith'") /\
   exit_status (main strip_plain splitlines_plain numeric_record_world plain_arguments)
     = Some 1%Z) /\
  (main strip_plain splitlines_plain read_only_world plain_arguments
     = Abort (Exn OtherException None "[Errno 13] Permission denied: 'recon_result.json'") /\
   exit_status (main strip_plain splitlines_plain read_only_world plain_arguments)
     = Some 1%Z).
Proof.
  split; [|split; [|split]].
  - split; [done|]. split; vm_compute; reflexivity.
  - split; [done|]. split; vm_compute; reflexivity.
  - split; [done|]. split; [|split]; vm_compute; reflexivity.
  - split; vm_compute; reflexivity.
Qed.

(** * Further properties *)

(** ** Requests of one probe *)

(** X1: a probe issues one HEAD to its URL and then, at most, one GET to
    the same URL; the GET is issued exactly when the HEAD raised something
    other than a [ClientResponseError], so never after a HEAD that was
    answered. *)
Theorem check_url_requests s url :
  ((check_url s url).2 = [HEAD url] \/ (check_url s url).2 = [HEAD url; GET url]) /\
  (GET url ∈ (check_url s url).2 <->
   exists e, do_head s url = Raise e /\ is_ClientResponseError e = false) /\
  (forall st fu, do_head s url = Resp st fu ->
     check_url s url = (Outcome url (Some st) (Some fu) None, [HEAD url])).
Proof.
  unfold check_url, on_head_reply.
  destruct (do_head s url) as [st fu|e]; [|destruct (is_ClientResponseError e) eqn:Hc];
    cbn [snd]; (split; [auto|split]).
  - split; [by intros [=]%list_elem_of_singleton|by intros (e & [=] & _)].
  - by intros st' fu' [= <- <-].
  - split; [by intros [=]%list_elem_of_singleton|]. intros (e' & [= <-] & He). congruence.
  - done.
  - split; [by exists e|]. intros _. apply elem_of_cons. right. apply elem_of_cons. by left.
  - done.
Qed.

(** ** Shape of an outcome *)

Lemma produced_shape u o :
  produced u o ->
  o_url o = u /\
  (is_Some (o_final_url o) <-> o_error o = None) /\
  (is_Some (o_final_url o) -> is_Some (o_status o)).
Proof.
  intros Hp. split; [by apply produced_url|].
  destruct Hp as [r o' Hr|r1 r2 _].
  - destruct r as [st fu|e]; simpl in Hr.
    + injection Hr as <-. simpl. split; [by split; [|eexists]|by eexists].
    + destruct (is_ClientResponseError e); [|done]. injection Hr as <-. simpl.
      split; [split; [by intros [? [=]]|done]|by intros [? [=]]].
  - destruct r2 as [st fu|e]; simpl.
    + split; [by split; [|eexists]|by eexists].
    + split; [split; [by intros [? [=]]|done]|by intros [? [=]]].
Qed.

(** X2: an outcome is about the URL that was probed, and it has either a
    final URL or an error description, never both and never neither; one
    with a final URL has a status code.  This holds for the dict of
    [check_url] and for every result handed back by [gather]. *)
Theorem outcome_shape :
  (forall s url,
     o_url (check_url s url).1 = url /\
     (is_Some (o_final_url (check_url s url).1) <-> o_error (check_url s url).1 = None) /\
     (is_Some (o_final_url (check_url s url).1) -> is_Some (o_status (check_url s url).1))) /\
  (forall budget urls st res,
     reachable budget urls st -> gather st = Some res ->
     Forall (fun o =>
               (is_Some (o_final_url o) <-> o_error o = None) /\
               (is_Some (o_final_url o) -> is_Some (o_status o))) res).
Proof.
  split.
  - intros s url. unfold check_url.
    destruct (on_head_reply url (do_head s url)) as [o|] eqn:Hr; cbn [fst].
    + eapply produced_shape, produced_head, Hr.
    + eapply produced_shape, produced_get, Hr.
  - intros budget urls st res Hreach Hg.
    pose proof (result_sound_reachable _ _ _ Hreach) as Hs.
    apply gather_Forall2 in Hg. apply Forall_forall. intros o Ho.
    destruct (list_elem_of_lookup_1 _ _ Ho) as [i Hi].
    destruct (Forall2_lookup_r _ _ _ _ _ Hg Hi) as (t & Hti & Hp).
    pose proof (Forall_lookup_1 _ _ _ _ Hs Hti) as Ht.
    unfold result_sound in Ht. rewrite Hp in Ht.
    by apply produced_shape in Ht as (_ & ? & ?).
Qed.

Lemma outcome_shape_witness :
  Forall (fun o =>
            (is_Some (o_final_url o) <-> o_error o = None) /\
            (is_Some (o_final_url o) -> is_Some (o_status o)))
    [Outcome "http://example.com/" (Some 302) None
       (Some "302, message='Too many redirects'")].
Proof.
  refine (proj2 outcome_shape 1%nat ["http://example.com/"]
            (LoopState 1 [Task "http://example.com/"
               (Returned (Outcome "http://example.com/" (Some 302) None
                            (Some "302, message='Too many redirects'")))])
            _ _ eq_refl).
  eapply rtc_l; [exists (EvAcquire 0); reflexivity|].
  eapply rtc_l; [|apply rtc_refl].
  exists (EvHead 0 (Raise (Exn ClientResponseError (Some 302) "302, message='Too many redirects'"))).
  reflexivity.
Defined.

(** ** Independence from the schedule *)

Lemma step_in_step s st st' : step_in s st st' -> step st st'.
Proof. intros (ev & _ & Hf). by exists ev. Qed.

Lemma follows_step_in s st st' :
  Forall (follows s) (tasks st) -> step_in s st st' -> Forall (follows s) (tasks st').
Proof.
  intros Hall (ev & Hev & Hf).
  destruct ev as [i|i r|i r]; simpl in Hf, Hev;
    destruct (tasks st !! i) as [[u []]|] eqn:Hi; try done.
  - unfold acquire in Hf. destruct (sem_value st); [done|].
    injection Hf as <-. cbn [tasks]. by apply Forall_insert.
  - destruct Hev as (t & [= <-] & ->). cbn [t_url] in Hf.
    destruct (on_head_reply u (do_head s u)) eqn:Hr; injection Hf as <-;
      cbn [tasks]; apply Forall_insert; try done;
      unfold follows, check_url; cbn [t_pc t_url]; by rewrite ?Hr.
  - destruct Hev as (t & [= <-] & ->). cbn [t_url] in Hf. injection Hf as <-.
    pose proof (Forall_lookup_1 _ _ _ _ Hall Hi) as Hfi.
    cbn [tasks]. apply Forall_insert; [done|].
    unfold follows in *; cbn [t_pc t_url] in *. unfold check_url. by rewrite Hfi.
Qed.

(** X3: the results do not depend on the order in which the loop wakes
    the tasks up: after any interleaving of the probes against a session,
    what [gather] hands back is what probing the URLs one after the other
    gives, in input order. *)
Theorem schedule_independent budget urls s st res :
  rtc (step_in s) (init budget urls) st ->
  gather st = Some res ->
  res = (fun u => (check_url s u).1) <$> urls.
Proof.
  intros Hrun Hg.
  assert (reachable budget urls st) as Hreach.
  { unfold reachable. eapply rtc_subrel; [|exact Hrun]. apply step_in_step. }
  assert (Forall (follows s) (tasks st)) as Hfol.
  { clear Hg Hreach. revert st Hrun. apply rtc_ind_r.
    - unfold init; cbn [tasks]. apply Forall_fmap, Forall_true. by intros u.
    - eauto using follows_step_in. }
  pose proof (accounted_reachable _ _ _ Hreach) as [_ Hurls].
  rewrite (follows_gather s) in Hg; [|done|apply gather_is_Some; by eexists].
  rewrite Hurls in Hg. by injection Hg as <-.
Qed.

Lemma schedule_independent_witness :
  [Outcome "http://a/" (Some 200) (Some "http://a/") None;
   Outcome "http://b/" (Some 204) (Some "http://b/") None]
  = (fun u => (check_url scenario_session u).1) <$> ["http://a/"; "http://b/"].
Proof.
  refine (schedule_independent 1 ["http://a/"; "http://b/"] scenario_session
            (LoopState 1 [Task "http://a/" (Returned (Outcome "http://a/" (Some 200) (Some "http://a/") None));
                          Task "http://b/" (Returned (Outcome "http://b/" (Some 204) (Some "http://b/") None))])
            _ _ eq_refl).
  eapply rtc_l; [exists (EvAcquire 1); split; [exact I|reflexivity]|].
  eapply rtc_l; [exists (EvHead 1 (Resp 204 "http://b/")); split; [by eexists|reflexivity]|].
  eapply rtc_l; [exists (EvAcquire 0); split; [exact I|reflexivity]|].
  eapply rtc_l; [exists (EvHead 0 (Raise (Exn OtherException None EmptyString)));
                 split; [by eexists|reflexivity]|].
  eapply rtc_l; [exists (EvGet 0 (Resp 200 "http://a/")); split; [by eexists|reflexivity]|].
  apply rtc_refl.
Defined.

(** ** [run_external_tool] *)

(** X4: [run_external_tool] raises exactly when [subprocess.run] raises
    something that is neither [FileNotFoundError] nor [TimeoutExpired],
    and then it is that exception which leaves it. *)
Theorem run_external_tool_raises subprocess_run cmd timeout e :
  run_external_tool subprocess_run cmd timeout = Exc e <->
  subprocess_run cmd timeout = ProcRaise e /\
  exn_cls e ≠ FileNotFoundError /\ exn_cls e ≠ TimeoutExpired.
Proof.
  unfold run_external_tool. destruct (subprocess_run cmd timeout) as [c o r|e'].
  { split; [done|]. by intros [? _]. }
  destruct (exn_cls e') eqn:Hc; split; try done; try (intros [[= <-] [? ?]]; congruence).
  all: intros [= <-]; rewrite Hc; done.
Qed.

(** X5: a result with a return code of zero or more comes from a process
    that ran to its end, with that return code and that output: the codes
    that stand for a missing command and for a timeout are negative, and
    their [stdout] is empty. *)
Theorem run_external_tool_completed subprocess_run cmd timeout o :
  run_external_tool subprocess_run cmd timeout = Val o ->
  ((0 <= rc o)%Z ->
   subprocess_run cmd timeout = Completed (rc o) (stdout o) (stderr o)) /\
  ((exists e, subprocess_run cmd timeout = ProcRaise e) ->
   (rc o < 0)%Z /\ stdout o = EmptyString).
Proof.
  unfold run_external_tool. destruct (subprocess_run cmd timeout) as [c out err|e].
  - intros [= <-]. simpl. split; [done|]. by intros [e [=]].
  - destruct (exn_cls e); try done; intros [= <-]; simpl; (split; [lia|done]).
Qed.

Lemma run_external_tool_completed_witness :
  ((0 <= rc (ToolOutput 0 "http://example.com/a" EmptyString))%Z ->
   w_subprocess_run binary_world ["waybackurls"; "example.com"] 120
   = Completed 0 "http://example.com/a" EmptyString) /\
  ((exists e, w_subprocess_run binary_world ["waybackurls"; "example.com"] 120
              = ProcRaise e) ->
   (rc (ToolOutput 0 "http://example.com/a" EmptyString) < 0)%Z /\
   stdout (ToolOutput 0 "http://example.com/a" EmptyString) = EmptyString).
Proof.
  exact (run_external_tool_completed (w_subprocess_run binary_world)
           ["waybackurls"; "example.com"] 120
           (ToolOutput 0 "http://example.com/a" EmptyString) eq_refl).
Defined.

(** ** [dns_enum] and [extract_urls_from_waybackstdout] *)

Section helpers_facts.
Variable py_strip : string -> string.
Variable py_splitlines : string -> list string.

(** X6: whatever the resolver does, the result of [dns_enum] has an entry
    for each of the seven record types and for nothing else. *)
Theorem dns_enum_keys resolve domain t :
  is_Some (dns_enum py_strip resolve domain !! t) <-> t ∈ record_types.
Proof.
  rewrite <- elem_of_dom. unfold dns_enum, record_types. cbn [foldl].
  rewrite !dom_insert_L, dom_empty_L.
  rewrite !elem_of_union, !elem_of_singleton, elem_of_empty.
  rewrite !elem_of_cons, elem_of_nil. tauto.
Qed.

End helpers_facts.

(** ** More on the archive source *)

Lemma collect_bare i acc (ss : list string) :
  collect_urls i (JStr <$> ss) acc = Some (acc ++ (JStr <$> ss))%list.
Proof.
  revert i acc. induction ss as [|s ss IH]; intros i acc; csimpl.
  { by rewrite app_nil_r. }
  rewrite andb_false_r. rewrite IH. by rewrite <- app_assoc.
Qed.

Lemma JStr_keys_NoDup (ss : list string) :
  NoDup ss -> NoDup (py_hash_key <$> (JStr <$> ss)).
Proof.
  intros Hnd. rewrite <- list_fmap_compose. apply NoDup_fmap_2; [|done].
  by intros s1 s2 [=].
Qed.

(** X8: [get_wayback_urls_via_cdx] does not cut its result at [limit]:
    the limit only goes into the request, and when the answer holds more
    distinct URLs than asked for, all of them are returned. *)
Theorem cdx_limit_not_enforced requests_get domain limit (ss : list string) :
  NoDup ss ->
  requests_get (CDX_API domain) limit = CdxResponse 200 (Some (JArr (JStr <$> ss))) ->
  get_wayback_urls_via_cdx requests_get domain limit = JStr <$> ss.
Proof.
  intros Hnd Hreply. rewrite cdx_result, Hreply. unfold raw_urls.
  rewrite bool_decide_eq_false_2 by (by intros []). cbn.
  rewrite collect_bare. cbn [app].
  rewrite decide_True.
  - by apply first_seen_NoDup, JStr_keys_NoDup.
  - apply Forall_fmap, Forall_true. intros s. by eexists.
Qed.

Lemma cdx_limit_not_enforced_witness :
  get_wayback_urls_via_cdx
    (fun _ _ => CdxResponse 200
       (Some (JArr (JStr <$> ["http://a/"; "http://b/"; "http://c/"]))))
    "example.com" 1
  = JStr <$> ["http://a/"; "http://b/"; "http://c/"].
Proof.
  refine (cdx_limit_not_enforced _ "example.com" 1 ["http://a/"; "http://b/"; "http://c/"]
            _ eq_refl).
  apply (bool_decide_unpack _). vm_compute. exact I.
Defined.

Lemma first_seen_covers l u :
  u ∈ l -> exists v, v ∈ first_seen l /\ py_hash_key v = py_hash_key u.
Proof.
  induction l as [|x l IH]; [by intros ?%elem_of_nil|].
  cbn [first_seen]. intros [->|Hu]%elem_of_cons.
  - exists x. split; [by left|done].
  - destruct (IH Hu) as (v & Hv & Hk).
    destruct (decide (py_hash_key v = py_hash_key x)) as [Heq|Hne].
    + exists x. split; [by left|congruence].
    + exists v. split; [|done]. right. by apply list_elem_of_filter.
Qed.

(** X9: the deduplication invents no URL: the result of the query is a
    subsequence of the URLs taken from the records.  It loses none when
    each of those URLs has a hash: every one is in the result, itself or
    as the earlier entry it is equal to.  When one of them is a list or a
    dict, the [TypeError] of line 85 reaches line 89 and all that was
    collected is lost: the result is empty. *)
Theorem cdx_result_complete requests_get domain limit raw :
  raw_urls (requests_get (CDX_API domain) limit) = Some raw ->
  get_wayback_urls_via_cdx requests_get domain limit `sublist_of` raw /\
  (Forall hashable raw ->
   forall u, u ∈ raw ->
     exists v, v ∈ get_wayback_urls_via_cdx requests_get domain limit /\
               py_hash_key v = py_hash_key u) /\
  (~ Forall hashable raw ->
   get_wayback_urls_via_cdx requests_get domain limit = []).
Proof.
  intros Hraw. rewrite cdx_result, Hraw.
  destruct (decide (Forall hashable raw)) as [Hh|Hn].
  - split; [apply first_seen_sublist|]. split; [|done].
    intros _ u. apply first_seen_covers.
  - split; [apply sublist_nil_l|]. split; done.
Qed.

Lemma cdx_result_complete_witness :
  (forall u, u ∈ [JStr "http://example.com/x"; JStr "http://example.com/x"] ->
     exists v,
       v ∈ get_wayback_urls_via_cdx (fun _ _ => CdxResponse 200 (Some example_response))
             "example.com" 500 /\
       py_hash_key v = py_hash_key u) /\
  get_wayback_urls_via_cdx
    (fun _ _ => CdxResponse 200
       (Some (JArr [JArr [JStr "http://a/"]; JArr [JStr "http://b/"]; JArr [JArr []]])))
    "example.com" 500 = [].
Proof.
  split.
  - refine (proj1 (proj2 (cdx_result_complete
              (fun _ _ => CdxResponse 200 (Some example_response))
              "example.com" 500 [JStr "http://example.com/x"; JStr "http://example.com/x"]
              eq_refl)) _).
    repeat constructor; by eexists.
  - refine (proj2 (proj2 (cdx_result_complete
              (fun _ _ => CdxResponse 200
                 (Some (JArr [JArr [JStr "http://a/"]; JArr [JStr "http://b/"]; JArr [JArr []]])))
              "example.com" 500 [JStr "http://a/"; JStr "http://b/"; JArr []]
              eq_refl)) _).
    intros Hall. apply Forall_cons in Hall as [_ Hall]. apply Forall_cons in Hall as [_ Hall].
    apply Forall_cons in Hall as [[k Hk] _]. discriminate Hk.
Defined.

(** X10: a 200 response whose body is a JSON object is not rejected: the
    loop walks over the keys of the dict, and the result is the keys, as
    if they were URLs. *)
Theorem cdx_object_body_gives_keys domain limit (members : list (string * json)) :
  get_wayback_urls_via_cdx (fun _ _ => CdxResponse 200 (Some (JObj members))) domain limit
  = first_seen (JStr <$> members.*1).
Proof.
  assert (py_iter (JObj members) = Some (JStr <$> members.*1)) as Hit.
  { unfold py_iter. by rewrite <- list_fmap_compose. }
  rewrite cdx_result. unfold raw_urls.
  rewrite bool_decide_eq_false_2 by (by intros []).
  cbn [mbind option_bind]. rewrite Hit. cbn [mbind option_bind].
  rewrite collect_bare. cbn [app].
  rewrite decide_True; [done|].
  apply Forall_fmap, Forall_true. intros s. by eexists.
Qed.

(** X11: with a maximum of zero or less the loop of [main] still keeps
    one URL: the test on the length comes after the first URL is stored. *)
Theorem limit_dedupe_nonpositive_max max u rest :
  (max <= 0)%Z ->
  hashable u ->
  limit_dedupe max ∅ [] (u :: rest) = Some [u].
Proof.
  intros Hmax [k Hk]. simpl. rewrite Hk. simpl.
  rewrite decide_False by set_solver. simpl.
  by rewrite bool_decide_eq_true_2 by lia.
Qed.

Lemma limit_dedupe_nonpositive_max_witness :
  limit_dedupe 0 ∅ [] [JStr "http://a/"; JStr "http://b/"] = Some [JStr "http://a/"].
Proof.
  refine (limit_dedupe_nonpositive_max 0 (JStr "http://a/") [JStr "http://b/"] _ _).
  - lia.
  - by eexists.
Defined.

(** ** The loop of [main] on any list *)

Lemma limit_dedupe_sound max seen uniq l out :
  NoDup (py_hash_key <$> uniq) ->
  Forall hashable uniq ->
  (forall k, k ∈ seen <-> Some k ∈ py_hash_key <$> uniq) ->
  limit_dedupe max seen uniq l = Some out ->
  NoDup (py_hash_key <$> out) /\
  Forall hashable out /\
  (exists ext, out = (uniq ++ ext)%list /\ ext `sublist_of` l) /\
  ((Z.of_nat (length uniq) < max)%Z -> (Z.of_nat (length out) <= max)%Z).
Proof.
  revert seen uniq. induction l as [|u l IH]; intros seen uniq Hnd Hh Hseen; simpl.
  { intros [= <-]. repeat split; try done. exists []. by rewrite app_nil_r. lia. }
  destruct (py_hash_key u) as [k|] eqn:Hk; [|done]. simpl.
  destruct (decide (k ∈ seen)) as [Hin|Hout].
  - case_bool_decide as Hcap.
    + intros [= <-]. repeat split; try done; [|lia].
      exists []. rewrite app_nil_r. split; [done|apply sublist_nil_l].
    + intros Hrec. destruct (IH _ _ Hnd Hh Hseen Hrec) as (? & ? & (ext & -> & Hext) & ?).
      repeat split; try done. exists ext. split; [done|by apply sublist_cons].
  - assert (NoDup (py_hash_key <$> (uniq ++ [u])%list)) as Hnd'.
    { rewrite fmap_app. apply NoDup_app. split; [done|]. split.
      - intros ko Hko [->|[]%elem_of_nil]%elem_of_cons. rewrite Hk in Hko.
        by apply Hseen in Hko.
      - simpl. apply NoDup_singleton. }
    assert (Forall hashable (uniq ++ [u])%list) as Hh'.
    { apply Forall_app. split; [done|]. repeat constructor. by exists k. }
    assert (forall k', k' ∈ {[k]} ∪ seen <-> Some k' ∈ py_hash_key <$> (uniq ++ [u])%list) as Hseen'.
    { intros k'. rewrite fmap_app, elem_of_app, elem_of_union, elem_of_singleton, <- Hseen.
      csimpl. rewrite list_elem_of_singleton, Hk.
      split; intros [?|?];
        first [by left|by right|left; congruence|right; congruence]. }
    case_bool_decide as Hcap.
    + intros [= <-]. repeat split; try done.
      * exists [u]. split; [done|]. apply sublist_skip, sublist_nil_l.
      * rewrite length_app. simpl. lia.
    + intros Hrec. destruct (IH _ _ Hnd' Hh' Hseen' Hrec) as (? & ? & (ext & -> & Hext) & Hlen).
      repeat split; try done.
      * exists (u :: ext). split; [by rewrite <- app_assoc|by apply sublist_skip].
      * intros _. apply Hlen. lia.
Qed.

(** ** The URLs that are probed *)

Lemma urls_to_check_strings (ss : list string) :
  urls_to_check (JStr <$> ss) = Val (filter (fun s => starts_with_http s = true) ss).
Proof.
  induction ss as [|s ss IH]; [done|]. csimpl. rewrite IH. simpl.
  rewrite filter_cons. unfold starts_with_http.
  by destruct (String.prefix "http://" s || String.prefix "https://" s).
Qed.

Lemma urls_to_check_not_strings uniq :
  ~ Forall is_str uniq ->
  urls_to_check uniq = Exc (AttributeError "object has no attribute 'startswith'").
Proof.
  induction uniq as [|u uniq IH]; intros Hn; [destruct Hn; constructor|].
  destruct u as [| | |s| |]; try done.
  simpl. rewrite IH; [done|]. intros Hall. apply Hn. constructor; [by exists s|done].
Qed.

Lemma is_str_strings uniq : Forall is_str uniq -> exists ss, uniq = JStr <$> ss.
Proof.
  induction 1 as [|u uniq [s ->] _ [ss ->]]; [by exists []|]. by exists (s :: ss).
Qed.

(** X12: the URLs handed to the liveness checker are, in order, the ones
    that begin with [http://] or [https://]; a list with an entry that is
    not a string raises [AttributeError] instead. *)
Theorem urls_to_check_filter :
  (forall ss : list string,
     urls_to_check (JStr <$> ss) = Val (filter (fun s => starts_with_http s = true) ss)) /\
  (forall uniq to_check,
     urls_to_check uniq = Val to_check ->
     Forall is_str uniq /\
     Forall (fun s => starts_with_http s = true) to_check /\
     JStr <$> to_check `sublist_of` uniq) /\
  (forall uniq, ~ Forall is_str uniq -> exists e, urls_to_check uniq = Exc e).
Proof.
  split; [exact urls_to_check_strings|].
  split; [|intros uniq Hn; eexists; by apply urls_to_check_not_strings].
  intros uniq to_check Hval.
  destruct (decide (Forall is_str uniq)) as [Hstr|Hn].
  - split; [done|]. destruct (is_str_strings _ Hstr) as [ss ->].
    rewrite urls_to_check_strings in Hval. injection Hval as <-. split.
    + apply Forall_forall. by intros s [? _]%list_elem_of_filter.
    + apply fmap_sublist, sublist_filter.
  - by rewrite urls_to_check_not_strings in Hval.
Qed.

(** ** The report *)

Lemma bulk_check_urls_spec s urls :
  bulk_check_urls s urls = Some ((fun u => (check_url s u).1) <$> urls).
Proof. apply run_checker_spec. unfold CONCURRENCY. lia. Qed.

Section report_facts.
Variable py_strip : string -> string.
Variable py_splitlines : string -> list string.

Lemma assemble_inv w args result :
  assemble py_strip py_splitlines w args = Val (Some result) ->
  exists dns external wayback_urls external',
    main_dns py_strip w (py_strip (arg_domain args)) = Val dns /\
    main_dig w args (py_strip (arg_domain args)) = Val external /\
    main_wayback_bin py_strip py_splitlines w args (py_strip (arg_domain args)) external
      = Val (wayback_urls, external') /\
    main_collect w args (py_strip (arg_domain args)) dns wayback_urls external'
      = Val (Some result).
Proof.
  unfold assemble.
  destruct (main_dns py_strip w (py_strip (arg_domain args))) as [dns|e] eqn:Hdns; [|done].
  cbn [mbind raising_bind].
  destruct (main_dig w args (py_strip (arg_domain args))) as [ext|e] eqn:Hdig; [|done].
  cbn [mbind raising_bind].
  destruct (main_wayback_bin py_strip py_splitlines w args (py_strip (arg_domain args)) ext)
    as [[urls ext']|e] eqn:Hbin; [|done].
  intros H. exists dns, ext, urls, ext'.
  split; [reflexivity|]. split; [reflexivity|]. split; [exact Hbin|exact H].
Qed.

Lemma main_collect_inv w args domain dns wayback_urls external result :
  main_collect w args domain dns wayback_urls external = Val (Some result) ->
  exists to_check,
    limit_dedupe (arg_max_wayback args) ∅ []
      (match wayback_urls with
       | [] => get_wayback_urls_via_cdx (w_cdx_get w) domain (arg_max_wayback args)
       | _ => wayback_urls
       end) = Some (r_wayback result) /\
    urls_to_check (r_wayback result) = Val to_check /\
    r_wayback_check result = (fun u => (check_url (w_session w) u).1) <$> to_check /\
    r_external result = external /\
    r_wayback_source result
      = match wayback_urls with [] => Some "cdx_api" | _ => None end /\
    r_basic_links_https result
      = take 200 (basic_html_links (w_page_get w) ("https://" +:+ domain)) /\
    r_dns result = dns /\
    r_domain result = domain /\
    r_timestamp result = w_utcnow w.
Proof.
  unfold main_collect.
  set (chosen := match wayback_urls with [] => (_, Some "cdx_api") | _ => (wayback_urls, None) end).
  assert (chosen.1 = match wayback_urls with
                     | [] => get_wayback_urls_via_cdx (w_cdx_get w) domain (arg_max_wayback args)
                     | _ => wayback_urls
                     end) as H1 by (subst chosen; by destruct wayback_urls).
  assert (chosen.2 = match wayback_urls with [] => Some "cdx_api" | _ => None end) as H2
    by (subst chosen; by destruct wayback_urls).
  rewrite <- H1, <- H2. destruct chosen as [urls source]. cbn [fst snd].
  destruct (limit_dedupe (arg_max_wayback args) ∅ [] urls) as [uniq|]; simpl; [|done].
  destruct (urls_to_check uniq) as [to_check|e] eqn:Hcheck; simpl; [|done].
  destruct (match to_check with
            | [] => Val (Some [])
            | _ => match w_get_event_loop w with
                   | Some e => Exc e
                   | None => Val (bulk_check_urls (w_session w) to_check)
                   end
            end) as [checks|e] eqn:Hchecks; simpl; [|done].
  assert (checks = Some ((fun u => (check_url (w_session w) u).1) <$> to_check)) as ->.
  { destruct to_check; [by injection Hchecks as <-|].
    destruct (w_get_event_loop w); [done|].
    injection Hchecks as <-. apply bulk_check_urls_spec. }
  simpl. intros [= <-]. exists to_check. by repeat split.
Qed.

(** X13: in every report the archive URL list has no duplicates and, for
    a positive [--max-wayback], at most that many entries, whether the
    URLs came from the [waybackurls] binary or from the CDX API. *)
Theorem report_wayback_unique_capped w args result :
  assemble py_strip py_splitlines w args = Val (Some result) ->
  NoDup (r_wayback result) /\
  ((0 < arg_max_wayback args)%Z ->
   (Z.of_nat (length (r_wayback result)) <= arg_max_wayback args)%Z).
Proof.
  intros (dns & external & wayback_urls & external' & _ & _ & _ & Hc)%assemble_inv.
  apply main_collect_inv in Hc as (to_check & Hlim & _).
  apply limit_dedupe_sound in Hlim as (Hnd & _ & _ & Hlen).
  - split; [by eapply NoDup_fmap_1|]. intros Hmax. apply Hlen. simpl. lia.
  - constructor.
  - constructor.
  - intros k. split; [by intros ?%elem_of_empty|by intros ?%elem_of_nil].
Qed.

(** X14: the liveness list of a report is the probing, one entry per URL
    and in order, of the archive URLs of that report that begin with
    [http://] or [https://]; no other URL is probed, and the archive URLs
    of a report are all strings. *)
Theorem report_checks_cover_http_urls w args result :
  assemble py_strip py_splitlines w args = Val (Some result) ->
  exists ss,
    r_wayback result = JStr <$> ss /\
    r_wayback_check result
    = (fun u => (check_url (w_session w) u).1)
        <$> filter (fun s => starts_with_http s = true) ss /\
    o_url <$> r_wayback_check result = filter (fun s => starts_with_http s = true) ss.
Proof.
  intros (dns & external & wayback_urls & external' & _ & _ & _ & Hc)%assemble_inv.
  apply main_collect_inv in Hc as (to_check & _ & Hcheck & Hres & _).
  destruct (decide (Forall is_str (r_wayback result))) as [Hstr|Hn].
  2: { by rewrite urls_to_check_not_strings in Hcheck. }
  destruct (is_str_strings _ Hstr) as [ss Hss]. exists ss. split; [done|].
  rewrite Hss, urls_to_check_strings in Hcheck. injection Hcheck as <-.
  split; [done|]. rewrite Hres, <- list_fmap_compose.
  rewrite <- (list_fmap_id (filter _ ss)) at 2.
  apply list_fmap_ext. intros _ u _. simpl. unfold check_url.
  destruct (on_head_reply u (do_head (w_session w) u)) as [o|] eqn:Hr; cbn [fst].
  - eapply produced_url, produced_head, Hr.
  - eapply produced_url, produced_get, Hr.
Qed.

(** X15: the report keeps at most 200 links of the home page, the first
    ones, and none when the page request raises or does not answer 200. *)
Theorem report_links_capped w args result :
  assemble py_strip py_splitlines w args = Val (Some result) ->
  (length (r_basic_links_https result) <= 200)%nat /\
  (forall status_code hrefs,
     w_page_get w ("https://" +:+ py_strip (arg_domain args))
       = PageResponse status_code (Some hrefs) ->
     status_code = 200%Z ->
     r_basic_links_https result = take 200 hrefs) /\
  ((forall hrefs,
      w_page_get w ("https://" +:+ py_strip (arg_domain args))
        ≠ PageResponse 200 (Some hrefs)) ->
   r_basic_links_https result = []).
Proof.
  intros (dns & external & wayback_urls & external' & _ & _ & _ & Hc)%assemble_inv.
  apply main_collect_inv in Hc as (to_check & _ & _ & _ & _ & _ & Hlinks & _).
  rewrite Hlinks. unfold basic_html_links. split; [|split].
  - rewrite length_take. lia.
  - intros sc hrefs -> ->. by rewrite bool_decide_eq_false_2 by (by intros []).
  - intros Hno. destruct (w_page_get w _) as [e|sc [hrefs|]]; try done.
    + case_bool_decide as Hsc; [done|].
      assert (sc = 200%Z) as -> by (destruct (decide (sc = 200%Z)); done).
      by destruct (Hno hrefs).
    + by case_bool_decide.
Qed.
Lemma main_dig_inv w args domain external :
  main_dig w args domain = Val external ->
  (arg_run_dig args = true /\
   exists o, run_external_tool (w_subprocess_run w) ["dig"; "+short"; domain] 60 = Val o /\
             external = <["dig_A" := ExtTool o]> ∅) \/
  (arg_run_dig args = false /\ external = ∅).
Proof.
  unfold main_dig. destruct (arg_run_dig args); [|intros [= <-]; by right].
  destruct (run_external_tool _ _ _) as [o|e]; [|done].
  intros [= <-]. left. split; [done|]. by exists o.
Qed.

Lemma main_wayback_bin_inv w args domain external wayback_urls external' :
  main_wayback_bin py_strip py_splitlines w args domain external
    = Val (wayback_urls, external') ->
  (arg_use_wayback_bin args = true /\
   exists o, run_external_tool (w_subprocess_run w) ["waybackurls"; domain] 120 = Val o /\
             (0 <= rc o)%Z /\ stdout o ≠ EmptyString /\
             wayback_urls = JStr <$> extract_urls_from_waybackstdout py_strip py_splitlines (stdout o) /\
             external' = <["wayback_binary" :=
                           ExtCount (rc o)
                             (length (extract_urls_from_waybackstdout py_strip py_splitlines
                                        (stdout o)))]> external) \/
  (wayback_urls = [] /\ external' = external).
Proof.
  unfold main_wayback_bin. destruct (arg_use_wayback_bin args); [|intros [= <- <-]; by right].
  destruct (run_external_tool _ _ _) as [o|e]; [|done]. cbn [mbind raising_bind].
  destruct (bool_decide (0 <= rc o)%Z && _) eqn:Hcond; [|intros [= <- <-]; by right].
  apply andb_true_iff in Hcond as [Hrc%bool_decide_eq_true_1 Hout%negb_true_iff].
  apply bool_decide_eq_false_1 in Hout.
  intros [= <- <-]. left. split; [done|]. by exists o.
Qed.

(** X16: the [external] part of a report has a [dig_A] entry exactly when
    [--run-dig] was given, also when [dig] is missing or timed out, and a
    [wayback_binary] entry only when the binary was asked for, ended with
    a return code of zero or more and printed something; the count of that
    entry is the number of URLs read from its output.  There is no other
    entry. *)
Theorem report_external_entries w args result :
  assemble py_strip py_splitlines w args = Val (Some result) ->
  (is_Some (r_external result !! "dig_A") <-> arg_run_dig args = true) /\
  (forall c n,
     r_external result !! "wayback_binary" = Some (ExtCount c n) ->
     arg_use_wayback_bin args = true /\
     exists o,
       run_external_tool (w_subprocess_run w)
         ["waybackurls"; py_strip (arg_domain args)] 120 = Val o /\
       rc o = c /\ (0 <= c)%Z /\ stdout o ≠ EmptyString /\
       n = length (extract_urls_from_waybackstdout py_strip py_splitlines (stdout o))) /\
  (forall key, is_Some (r_external result !! key) ->
     key = "dig_A" \/ key = "wayback_binary").
Proof.
  intros (dns & external & wayback_urls & external' & _ & Hdig & Hbin & Hc)%assemble_inv.
  apply main_collect_inv in Hc as (to_check & _ & _ & _ & -> & _).
  apply main_dig_inv in Hdig. apply main_wayback_bin_inv in Hbin.
  assert (forall key, is_Some (external !! key) <-> key = "dig_A" /\ arg_run_dig args = true)
    as Hext.
  { intros key. destruct Hdig as [(Hflag & o & _ & ->)|[Hflag ->]].
    - rewrite lookup_insert_is_Some, lookup_empty. rewrite <- not_eq_None_Some.
      split; [intros [<-|[_ []]]; done|intros [-> _]; by left].
    - rewrite lookup_empty, <- not_eq_None_Some. split; [done|]. intros [_ ?]. congruence. }
  destruct Hbin as [(Hflag & o & Hrun & Hrc & Hout & -> & ->)|[-> ->]].
  - split; [|split].
    + rewrite lookup_insert_ne by done. rewrite Hext. split; [by intros [_ ?]|done].
    + intros c n. rewrite lookup_insert_eq. intros [= <- <-].
      split; [done|]. by exists o.
    + intros key. rewrite lookup_insert_is_Some, Hext.
      intros [<-|[_ [-> _]]]; [by right|by left].
  - split; [|split].
    + rewrite Hext. split; [by intros [_ ?]|done].
    + intros c n Hl. assert (is_Some (external !! "wayback_binary")) as His by by eexists.
      apply Hext in His as [[=] _].
    + intros key [-> _]%Hext. by left.
Qed.

(** X17: when the [waybackurls] binary was asked for, ended with a return
    code of zero or more and printed at least one URL, the CDX API plays
    no part in the run: with any other archive the run is the same, the
    report has no [wayback_source], and its URLs are among those of the
    binary, in order. *)
Theorem binary_success_skips_cdx w args cdx_get returncode out err :
  arg_use_wayback_bin args = true ->
  w_subprocess_run w ["waybackurls"; py_strip (arg_domain args)] 120
    = Completed returncode out err ->
  (0 <= returncode)%Z ->
  out ≠ EmptyString ->
  extract_urls_from_waybackstdout py_strip py_splitlines out ≠ [] ->
  assemble py_strip py_splitlines (with_cdx w cdx_get) args
    = assemble py_strip py_splitlines w args /\
  (forall result,
     assemble py_strip py_splitlines w args = Val (Some result) ->
     r_wayback_source result = None /\
     r_wayback result
       `sublist_of` (JStr <$> extract_urls_from_waybackstdout py_strip py_splitlines out)).
Proof.
  intros Hflag Hrun Hrc Hout Hurls.
  assert (forall external,
    main_wayback_bin py_strip py_splitlines w args (py_strip (arg_domain args)) external
    = Val (JStr <$> extract_urls_from_waybackstdout py_strip py_splitlines out,
           <["wayback_binary" :=
              ExtCount returncode
                (length (extract_urls_from_waybackstdout py_strip py_splitlines out))]>
             external)) as Hbin.
  { intros external. unfold main_wayback_bin, run_external_tool.
    rewrite Hflag, Hrun. cbn [mbind raising_bind rc stdout].
    by rewrite bool_decide_eq_true_2, bool_decide_eq_false_2 by done. }
  destruct (extract_urls_from_waybackstdout py_strip py_splitlines out) as [|x xs] eqn:Hx;
    [done|].
  split.
  - unfold assemble.
    change (main_dns py_strip (with_cdx w cdx_get) (py_strip (arg_domain args)))
      with (main_dns py_strip w (py_strip (arg_domain args))).
    destruct (main_dns py_strip w (py_strip (arg_domain args))) as [dns|e]; [|done].
    cbn [mbind raising_bind].
    change (main_dig (with_cdx w cdx_get) args (py_strip (arg_domain args)))
      with (main_dig w args (py_strip (arg_domain args))).
    destruct (main_dig w args (py_strip (arg_domain args))) as [ext|e]; [|done].
    cbn [mbind raising_bind].
    change (main_wayback_bin py_strip py_splitlines (with_cdx w cdx_get) args
              (py_strip (arg_domain args)) ext)
      with (main_wayback_bin py_strip py_splitlines w args (py_strip (arg_domain args)) ext).
    rewrite Hbin. reflexivity.
  - intros result (dns & ext & wayback_urls & ext' & _ & _ & Hb & Hc)%assemble_inv.
    rewrite Hbin in Hb. injection Hb as <- <-.
    apply main_collect_inv in Hc as (to_check & Hlim & _ & _ & _ & Hsrc & _).
    split; [done|]. cbn [fmap list_fmap] in Hlim.
    apply limit_dedupe_sound in Hlim as (_ & _ & (l & -> & Hsub) & _); try done.
    + constructor.
    + intros k. split; [by intros ?%elem_of_empty|by intros ?%elem_of_nil].
Qed.
End report_facts.

Lemma report_wayback_unique_capped_witness :
  (exists result,
     assemble strip_plain splitlines_lf repeating_binary_world capped_binary_arguments
       = Val (Some result) /\
     r_wayback result = [JStr "http://a/"; JStr "http://b/"] /\
     NoDup (r_wayback result) /\
     ((0 < arg_max_wayback capped_binary_arguments)%Z ->
      (Z.of_nat (length (r_wayback result)) <= arg_max_wayback capped_binary_arguments)%Z)) /\
  (exists result,
     assemble strip_plain splitlines_plain repeating_cdx_world capped_arguments
       = Val (Some result) /\
     r_wayback result = [JStr "http://a/"; JStr "http://b/"] /\
     NoDup (r_wayback result) /\
     ((0 < arg_max_wayback capped_arguments)%Z ->
      (Z.of_nat (length (r_wayback result)) <= arg_max_wayback capped_arguments)%Z)).
Proof.
  split.
  - eexists. split; [vm_compute; reflexivity|]. split; [reflexivity|].
    refine (report_wayback_unique_capped strip_plain splitlines_lf
              repeating_binary_world capped_binary_arguments _ _).
    vm_compute; reflexivity.
  - eexists. split; [vm_compute; reflexivity|]. split; [reflexivity|].
    refine (report_wayback_unique_capped strip_plain splitlines_plain
              repeating_cdx_world capped_arguments _ _).
    vm_compute; reflexivity.
Defined.

Lemma report_checks_cover_http_urls_witness :
  exists result,
    assemble strip_plain splitlines_plain binary_world binary_arguments = Val (Some result) /\
    exists ss,
      r_wayback result = JStr <$> ss /\
      r_wayback_check result
      = (fun u => (check_url (w_session binary_world) u).1)
          <$> filter (fun s => starts_with_http s = true) ss /\
      o_url <$> r_wayback_check result = filter (fun s => starts_with_http s = true) ss.
Proof.
  eexists. split; [vm_compute; reflexivity|].
  refine (report_checks_cover_http_urls strip_plain splitlines_plain
            binary_world binary_arguments _ _).
  vm_compute; reflexivity.
Defined.

Lemma report_links_capped_witness :
  exists result,
    assemble strip_plain splitlines_plain binary_world binary_arguments = Val (Some result) /\
    (length (r_basic_links_https result) <= 200)%nat.
Proof.
  eexists. split; [vm_compute; reflexivity|].
  refine (proj1 (report_links_capped strip_plain splitlines_plain
                   binary_world binary_arguments _ _)).
  vm_compute; reflexivity.
Defined.

Lemma report_external_entries_witness :
  exists result,
    assemble strip_plain splitlines_plain binary_world binary_arguments = Val (Some result) /\
    (is_Some (r_external result !! "dig_A") <-> arg_run_dig binary_arguments = true).
Proof.
  eexists. split; [vm_compute; reflexivity|].
  refine (proj1 (report_external_entries strip_plain splitlines_plain
                   binary_world binary_arguments _ _)).
  vm_compute; reflexivity.
Defined.

Lemma binary_success_skips_cdx_witness :
  assemble strip_plain splitlines_plain
    (with_cdx binary_world (fun _ _ => CdxResponse 200 (Some example_response)))
    binary_arguments
  = assemble strip_plain splitlines_plain binary_world binary_arguments.
Proof.
  refine (proj1 (binary_success_skips_cdx strip_plain splitlines_plain
                   binary_world binary_arguments
                   (fun _ _ => CdxResponse 200 (Some example_response))
                   0 "http://example.com/a" EmptyString eq_refl eq_refl _ _ _)).
  - lia.
  - done.
  - done.
Defined.

(** ** Uniqueness at the source *)

(** X18: whatever the archive answers, the list returned by
    [get_wayback_urls_via_cdx] has no duplicates: no two of its entries
    are equal, not even as keys of a Python set, and each has a hash. *)
Theorem cdx_result_unique requests_get domain limit :
  NoDup (get_wayback_urls_via_cdx requests_get domain limit) /\
  NoDup (py_hash_key <$> get_wayback_urls_via_cdx requests_get domain limit) /\
  Forall hashable (get_wayback_urls_via_cdx requests_get domain limit).
Proof.
  assert (NoDup (py_hash_key <$> get_wayback_urls_via_cdx requests_get domain limit) /\
          Forall hashable (get_wayback_urls_via_cdx requests_get domain limit)) as [Hk Hh].
  { rewrite cdx_result. destruct (raw_urls _) as [raw|]; [|split; constructor].
    destruct (decide (Forall hashable raw)); [|split; constructor].
    split; [apply first_seen_NoDup_keys|by apply first_seen_hashable]. }
  split; [by eapply NoDup_fmap_1|done].
Qed.

(** ** Lookups of [dns_enum] *)

(** X19: the entry of a record type is what its own lookup gave: the
    stripped answers, or the empty list when that lookup raised.  A
    lookup that fails leaves the entries of the other types as they
    are. *)
Theorem dns_enum_lookups (py_strip : string -> string)
    (resolve : string -> string -> option (list string)) (domain t : string) :
  t ∈ record_types ->
  dns_enum py_strip resolve domain !! t
  = Some match resolve domain t with
         | Some answers_raw => py_strip <$> answers_raw
         | None => []
         end.
Proof.
  unfold dns_enum, record_types. cbn [foldl]. intros Ht.
  repeat (apply elem_of_cons in Ht as [->|Ht]);
    [.. | by apply elem_of_nil in Ht];
    repeat (rewrite lookup_insert_ne by done); by rewrite lookup_insert_eq.
Qed.

Lemma dns_enum_lookups_witness :
  dns_enum strip_plain a_only_resolve "example.com" !! "A" = Some ["93.184.216.34"] /\
  dns_enum strip_plain a_only_resolve "example.com" !! "MX" = Some [].
Proof.
  split.
  - refine (dns_enum_lookups strip_plain a_only_resolve "example.com" "A" _).
    apply (bool_decide_unpack _). vm_compute. exact I.
  - refine (dns_enum_lookups strip_plain a_only_resolve "example.com" "MX" _).
    apply (bool_decide_unpack _). vm_compute. exact I.
Defined.
